(** * MXU task-configuration views: a shallow embedding of the view logic

    The development follows the three source files of the presentation
    layer: [ContextMenu.tsx] (the menu primitive, its hook and the task
    row [TaskItem]), the task list with its drag-end handler, and the
    onboarding overlay.  Store commands are recorded as a trace, React
    state is threaded explicitly, and timers are kept in an explicit
    queue driven by a millisecond clock. *)

From stdpp Require Import base strings list gmap.
From Stdlib Require Import ZArith Lia QArith Qround Qabs Lqa Floats.

Local Open Scope Z_scope.
Local Set Warnings "-register-all".

(** ** JavaScript values used by the views *)

Module Js.

(** Text that the code trims is kept as its sequence of UTF-16 code
    units; identifiers, which are only compared, stay [string]. *)
Definition text := list N.

(** ECMAScript [WhiteSpace] and [LineTerminator] code points, the ones
    [String.prototype.trim] strips. *)
Definition isWhiteSpace (c : N) : bool :=
  ((c =? 0x0009) || (c =? 0x000A) || (c =? 0x000B) || (c =? 0x000C)
   || (c =? 0x000D) || (c =? 0x0020) || (c =? 0x00A0) || (c =? 0x1680)
   || ((0x2000 <=? c) && (c <=? 0x200A))
   || (c =? 0x2028) || (c =? 0x2029) || (c =? 0x202F) || (c =? 0x205F)
   || (c =? 0x3000) || (c =? 0xFEFF))%N.

Fixpoint trimStart (s : text) : text :=
  match s with
  | [] => []
  | c :: rest => if isWhiteSpace c then trimStart rest else s
  end.

Definition trimEnd (s : text) : text := rev (trimStart (rev s)).

Definition trim (s : text) : text := trimEnd (trimStart s).

(** [a || b] on possibly-empty strings: the empty string is falsy. *)
Definition orText (a : option text) (b : text) : text :=
  match a with
  | Some (c :: s) => c :: s
  | _ => b
  end.

(** Truthiness of an optional boolean property. *)
Definition truthy (b : option bool) : bool :=
  match b with Some true => true | _ => false end.

(** Truthiness of [string | null]: null and the empty string are falsy. *)
Definition truthyId (s : option string) : bool :=
  match s with
  | Some s => negb (bool_decide (s = ""%string))
  | None => false
  end.

(** [Array.prototype.findIndex]: first index whose element passes the
    test, [-1] when none does. *)
Fixpoint findIndex {A} (p : A → bool) (l : list A) : Z :=
  match l with
  | [] => -1
  | a :: l' =>
      if p a then 0
      else let r := findIndex p l' in if r <? 0 then -1 else r + 1
  end.

(** [Array.prototype.find]. *)
Fixpoint find {A} (p : A → bool) (l : list A) : option A :=
  match l with
  | [] => None
  | a :: l' => if p a then Some a else find p l'
  end.

End Js.

(** ** Commands of the external store *)

Inductive StoreCommand :=
| ReorderTasks (instanceId : string) (fromIndex toIndex : Z)
| ToggleTaskEnabled (instanceId taskId : string)
| ToggleTaskExpanded (instanceId taskId : string)
| RemoveTaskFromInstance (instanceId taskId : string)
| RenameTask (instanceId taskId : string) (newName : Js.text)
| DuplicateTask (instanceId taskId : string)
| MoveTaskUp (instanceId taskId : string)
| MoveTaskDown (instanceId taskId : string)
| MoveTaskToTop (instanceId taskId : string)
| MoveTaskToBottom (instanceId taskId : string).

(** ** ContextMenu.tsx: the menu primitive *)

Module ContextMenu.

(** [interface MenuItem]; [A] is the type of click actions. *)
Inductive MenuItem (A : Type) := mkMenuItem {
  id : string;
  label : string;
  icon : option string;
  shortcut : option string;
  disabled : option bool;
  danger : option bool;
  checked : option bool;
  children : option (list (MenuItem A));
  onClick : option A;
  divider : option bool;
}.
Arguments mkMenuItem {A}.
Arguments id {A}. Arguments label {A}. Arguments icon {A}.
Arguments shortcut {A}. Arguments disabled {A}. Arguments danger {A}.
Arguments checked {A}. Arguments children {A}. Arguments onClick {A}.
Arguments divider {A}.

(** What a click handler does, in order. *)
Inductive ClickEffect (A : Type) :=
| Invoke (a : A)
| Close.
Arguments Invoke {A}. Arguments Close {A}.

Definition optional_call {A} (f : option A) : list (ClickEffect A) :=
  match f with Some a => [Invoke a] | None => [] end.

(** [handleClick] of [MenuItemComponent]: an array is truthy even when
    empty, so any present [children] field stops the click. *)
Definition handleClick {A} (item : MenuItem A) : list (ClickEffect A) :=
  if Js.truthy (disabled item) || bool_decide (is_Some (children item))
  then []
  else optional_call (onClick item) ++ [Close].

(** The element [MenuItemComponent] returns. *)
Inductive Element (A : Type) :=
| DividerEl
| ButtonEl (onClickHandler : list (ClickEffect A)) (disabledAttr : bool).
Arguments DividerEl {A}. Arguments ButtonEl {A}.

Definition MenuItemComponent {A} (item : MenuItem A) : Element A :=
  if Js.truthy (divider item) then DividerEl
  else ButtonEl (handleClick item) (Js.truthy (disabled item)).

(** A click on a rendered element: a divider carries no handler and a
    disabled button receives no click event. *)
Definition click {A} (el : Element A) : list (ClickEffect A) :=
  match el with
  | DividerEl => []
  | ButtonEl h d => if d then [] else h
  end.

Record MenuPosition := mkPos { x : Z; y : Z }.
Record Rect := mkRect { width : Z; height : Z }.

(** The positioning effect on whole CSS pixels: the values written to
    [style.left] and [style.top] when anchor, measured size and viewport
    are integers, where the code's arithmetic does not round.  The
    effect on arbitrary JavaScript numbers is [Placement.adjustPosition64]
    below; the two agree on whole pixels. *)
Definition adjustPosition (rect : Rect) (viewportWidth viewportHeight : Z)
    (position : MenuPosition) : MenuPosition :=
  let x0 := x position in
  let y0 := y position in
  let x1 := if bool_decide (x0 + width rect > viewportWidth)
            then viewportWidth - width rect - 8 else x0 in
  let y1 := if bool_decide (y0 + height rect > viewportHeight)
            then viewportHeight - height rect - 8 else y0 in
  mkPos (Z.max 8 x1) (Z.max 8 y1).

(** The effect returns early while [menuRef.current] is null. *)
Definition positionEffect (menuRef : option Rect)
    (viewportWidth viewportHeight : Z) (position : MenuPosition)
    : option MenuPosition :=
  match menuRef with
  | None => None
  | Some rect => Some (adjustPosition rect viewportWidth viewportHeight position)
  end.

(** Bounding box of a panel of size [rect] placed at [p]. *)
Definition inBox (lo_x hi_x lo_y hi_y : Z) (rect : Rect) (p : MenuPosition) : Prop :=
  lo_x <= x p ∧ x p + width rect <= hi_x ∧
  lo_y <= y p ∧ y p + height rect <= hi_y.

(** [interface ContextMenuState] and the [useContextMenu] hook. *)
Record ContextMenuState (A : Type) := mkState {
  isOpen : bool;
  position : MenuPosition;
  items : list (MenuItem A);
}.
Arguments mkState {A}. Arguments isOpen {A}. Arguments position {A}.
Arguments items {A}.

Definition initialState {A} : ContextMenuState A :=
  mkState false (mkPos 0 0) [].

Definition show {A} (clientX clientY : Z) (its : list (MenuItem A))
    (_ : ContextMenuState A) : ContextMenuState A :=
  mkState true (mkPos clientX clientY) its.

(** [setState((prev) => ({ ...prev, isOpen: false }))]. *)
Definition hide {A} (prev : ContextMenuState A) : ContextMenuState A :=
  mkState false (position prev) (items prev).

End ContextMenu.

(** ** Data read from the external store *)

(** [SelectedTask] of [@/types/interface]. *)
Record SelectedTask := mkTask {
  taskId : string;
  taskName : string;
  customName : option Js.text;
  enabled : bool;
  expanded : bool;
  optionValues : gmap string string;
}.

(** A task definition of the project interface; [option] is optional. *)
Record TaskDef := mkTaskDef {
  defName : string;
  defLabel : Js.text;
  defOption : option (list string);
}.

Record ProjectInterface := mkInterface { task : list TaskDef }.

Record Instance := mkInstance {
  instanceId : string;
  selectedTasks : list SelectedTask;
}.

(** ** ContextMenu.tsx, second part: the task row *)

Module TaskItem.

Import ContextMenu.

Record Props := mkProps { propInstanceId : string; propTask : SelectedTask }.

(** What the row reads from [useAppStore]. *)
Record StoreView := mkStoreView {
  projectInterface : option ProjectInterface;
  activeInstance : option Instance;
}.

(** Click actions carried by the row's menu items. *)
Inductive RowAction :=
| Dispatch (c : StoreCommand)
| BeginRename.

(** Component-local state: the two [useState] cells and the menu hook. *)
Record State := mkSt {
  isEditing : bool;
  editName : Js.text;
  menuState : ContextMenuState RowAction;
}.

Definition initial : State := mkSt false [] initialState.

(** Effects of a handler that leave the component. *)
Inductive Effect :=
| Store (c : StoreCommand)
| DragActivate (id : string).

Section Row.
Variable store : StoreView.
Variable props : Props.

Let instId := propInstanceId props.
Let tsk := propTask props.

(** [projectInterface?.task.find(t => t.name === task.taskName)]. *)
Definition taskDef : option TaskDef :=
  match projectInterface store with
  | None => None
  | Some pi => Js.find (λ d, bool_decide (defName d = taskName tsk)) (task pi)
  end.

(** [taskDef.option && taskDef.option.length > 0]. *)
Definition hasOptions (def : TaskDef) : bool :=
  match defOption def with
  | Some (_ :: _) => true
  | _ => false
  end.

Definition handleDoubleClick (st : State) : State :=
  mkSt true (Js.orText (customName tsk) []) (menuState st).

Definition handleSaveEdit (st : State) : State * list Effect :=
  (mkSt false (editName st) (menuState st),
   [Store (RenameTask instId (taskId tsk) (Js.trim (editName st)))]).

Definition handleCancelEdit (st : State) : State :=
  mkSt false [] (menuState st).

Definition handleKeyDown (key : string) (st : State) : State * list Effect :=
  if bool_decide (key = "Enter"%string) then handleSaveEdit st
  else if bool_decide (key = "Escape"%string) then (handleCancelEdit st, [])
  else (st, []).

(** The controls of the row header. *)
Inductive Control :=
| DragHandle | EnableCheckbox
| NameInput | ConfirmButton | CancelButton
| NameArea
| ExpandButton | DeleteButton.

#[global] Instance Control_eq_dec : EqDecision Control.
Proof. solve_decision. Defined.

(** The header as the JSX lays it out. *)
Definition header (def : TaskDef) (st : State) : list Control :=
  [DragHandle; EnableCheckbox]
  ++ (if isEditing st then [NameInput; ConfirmButton; CancelButton]
      else [NameArea])
  ++ (if hasOptions def && negb (isEditing st) then [ExpandButton] else [])
  ++ (if negb (isEditing st) then [DeleteButton] else []).

Record View := mkView {
  controls : list Control;
  optionPanel : option (list (string * option string));
  contextMenu : option (list (MenuItem RowAction) * MenuPosition);
}.

(** The component body: [null] when the definition is not found. *)
Definition render (st : State) : option View :=
  match taskDef with
  | None => None
  | Some def =>
      Some (mkView
        (header def st)
        (if hasOptions def && expanded tsk
         then Some ((λ k, (k, optionValues tsk !! k)) <$> default [] (defOption def))
         else None)
        (if isOpen (menuState st)
         then Some (items (menuState st), position (menuState st))
         else None))
  end.

(** The hook calls one run of the component body makes, in order.  The
    hooks of other modules stand for the fixed run of React hooks each
    of them makes.  [handleContextMenu]'s [useCallback] comes after the
    [return null], so it is reached only when the definition resolves. *)
Inductive Hook :=
| UseTranslation | UseState | UseAppStore | UseContextMenu | UseSortable
| UseCallback.

Definition hooks : list Hook :=
  [UseTranslation; UseState; UseState; UseAppStore; UseContextMenu; UseSortable]
  ++ match taskDef with
     | None => []
     | Some _ => [UseCallback]
     end.

(** React's two hook-order errors. *)
Inductive Failure :=
| FewerHooks    (* Rendered fewer hooks than expected *)
| MoreHooks.    (* Rendered more hooks than during the previous render *)

Inductive Pass :=
| Returned (v : option View)
| Thrown (f : Failure).

(** One render pass of a row instance.  [previous] is the hook list
    React recorded on the instance's previous pass, [None] on mount;
    React throws when an update runs a different number of hooks. *)
Definition renderPass (previous : option (list Hook)) (st : State) : Pass :=
  match previous with
  | None => Returned (render st)
  | Some prev =>
      if bool_decide (length hooks < length prev)%nat then Thrown FewerHooks
      else if bool_decide (length prev < length hooks)%nat then Thrown MoreHooks
      else Returned (render st)
  end.

(** User gestures on the header, each aimed at one control. *)
Inductive Gesture :=
| PointerOnHandle
| CheckboxChange
| NameDoubleClick
| InputChange (value : Js.text)
| InputKeyDown (key : string)
| InputBlur
| ConfirmMouseDown
| CancelMouseDown
| ExpandClick
| DeleteClick.

Definition target (g : Gesture) : Control :=
  match g with
  | PointerOnHandle => DragHandle
  | CheckboxChange => EnableCheckbox
  | NameDoubleClick => NameArea
  | InputChange _ | InputKeyDown _ | InputBlur => NameInput
  | ConfirmMouseDown => ConfirmButton
  | CancelMouseDown => CancelButton
  | ExpandClick => ExpandButton
  | DeleteClick => DeleteButton
  end.

(** The handler the JSX attaches for each gesture. *)
Definition handler (g : Gesture) (st : State) : State * list Effect :=
  match g with
  | PointerOnHandle => (st, [DragActivate (taskId tsk)])
  | CheckboxChange => (st, [Store (ToggleTaskEnabled instId (taskId tsk))])
  | NameDoubleClick => (handleDoubleClick st, [])
  | InputChange v => (mkSt (isEditing st) v (menuState st), [])
  | InputKeyDown k => handleKeyDown k st
  | InputBlur => handleSaveEdit st
  | ConfirmMouseDown => handleSaveEdit st
  | CancelMouseDown => (handleCancelEdit st, [])
  | ExpandClick => (st, [Store (ToggleTaskExpanded instId (taskId tsk))])
  | DeleteClick => (st, [Store (RemoveTaskFromInstance instId (taskId tsk))])
  end.

(** A gesture reaches its handler only when its control is rendered. *)
Definition activate (g : Gesture) (st : State) : State * list Effect :=
  match render st with
  | Some v =>
      if bool_decide (target g ∈ controls v) then handler g st else (st, [])
  | None => (st, [])
  end.

(** Object literals of the row menu: an entry and a divider. *)
Definition entry (id label icon : string) (disabled danger : option bool)
    (onClick : RowAction) : MenuItem RowAction :=
  mkMenuItem id label (Some icon) None disabled danger None None
             (Some onClick) None.

Definition dividerItem (id : string) : MenuItem RowAction :=
  mkMenuItem id "" None None None None None None None (Some true).

(** The translation function of [useTranslation]. *)
Variable t : string → string.

(** [handleContextMenu]: the item set is computed from the task's
    current place in the active instance's list. *)
Definition handleContextMenu (clientX clientY : Z) (st : State) : State :=
  match activeInstance store with
  | None => st
  | Some instance =>
      let tasks := selectedTasks instance in
      let taskIndex :=
        Js.findIndex (λ t', bool_decide (taskId t' = taskId tsk)) tasks in
      let isFirst := bool_decide (taskIndex = 0) in
      let isLast := bool_decide (taskIndex = Z.of_nat (length tasks) - 1) in
      let withOptions := match taskDef with
                         | Some def => hasOptions def
                         | None => false
                         end in
      let menuItems :=
        [ entry "duplicate" (t "contextMenu.duplicateTask") "Copy" None None
                (Dispatch (DuplicateTask instId (taskId tsk)));
          entry "rename" (t "contextMenu.renameTask") "Edit3" None None
                BeginRename;
          dividerItem "divider-1";
          entry "toggle"
                (if enabled tsk then t "contextMenu.disableTask"
                 else t "contextMenu.enableTask")
                (if enabled tsk then "ToggleLeft" else "ToggleRight")
                None None
                (Dispatch (ToggleTaskEnabled instId (taskId tsk))) ]
        ++ (if withOptions
            then [ entry "expand"
                     (if expanded tsk then t "contextMenu.collapseOptions"
                      else t "contextMenu.expandOptions")
                     (if expanded tsk then "ChevronUp" else "ChevronDown")
                     None None
                     (Dispatch (ToggleTaskExpanded instId (taskId tsk))) ]
            else [])
        ++ [ dividerItem "divider-2";
             entry "move-up" (t "contextMenu.moveUp") "ChevronUp"
                   (Some isFirst) None
                   (Dispatch (MoveTaskUp instId (taskId tsk)));
             entry "move-down" (t "contextMenu.moveDown") "ChevronDown"
                   (Some isLast) None
                   (Dispatch (MoveTaskDown instId (taskId tsk)));
             entry "move-top" (t "contextMenu.moveToTop") "ChevronsUp"
                   (Some isFirst) None
                   (Dispatch (MoveTaskToTop instId (taskId tsk)));
             entry "move-bottom" (t "contextMenu.moveToBottom") "ChevronsDown"
                   (Some isLast) None
                   (Dispatch (MoveTaskToBottom instId (taskId tsk)));
             dividerItem "divider-3";
             entry "delete" (t "contextMenu.deleteTask") "Trash2"
                   None (Some true)
                   (Dispatch (RemoveTaskFromInstance instId (taskId tsk))) ] in
      mkSt (isEditing st) (editName st)
           (show clientX clientY menuItems (menuState st))
  end.

(** Running what a click on a menu entry produced. *)
Definition perform (e : ClickEffect RowAction) (r : State * list Effect)
    : State * list Effect :=
  let '(st, out) := r in
  match e with
  | Invoke (Dispatch c) => (st, out ++ [Store c])
  | Invoke BeginRename =>
      (mkSt true (Js.orText (customName tsk) []) (menuState st), out)
  | Close => (mkSt (isEditing st) (editName st) (hide (menuState st)), out)
  end.

Definition menuClick (item : MenuItem RowAction) (st : State)
    : State * list Effect :=
  foldl (λ r e, perform e r) (st, []) (click (MenuItemComponent item)).

(** A gesture is suppressed in a state when its control is not
    rendered there and the gesture changes nothing. *)
Definition suppressed (st : State) (g : Gesture) : Prop :=
  activate g st = (st, [])
  ∧ ∀ v, render st = Some v → target g ∉ controls v.

(** The three gestures that commit the edit buffer. *)
Definition commits (g : Gesture) : bool :=
  match g with
  | InputKeyDown k => bool_decide (k = "Enter"%string)
  | InputBlur | ConfirmMouseDown => true
  | _ => false
  end.

End Row.

End TaskItem.

(** ** The task list and its drag-end handler *)

Module TaskList.

(** [DragEndEvent]: the dragged item and the droppable under it, if any. *)
Record DragEndEvent := mkDragEnd { active : string; over : option string }.

Definition handleDragEnd (instance : option Instance) (event : DragEndEvent)
    : list StoreCommand :=
  match over event, instance with
  | Some overId, Some inst =>
      if bool_decide (active event ≠ overId) then
        let oldIndex :=
          Js.findIndex (λ t, bool_decide (taskId t = active event)) (selectedTasks inst) in
        let newIndex :=
          Js.findIndex (λ t, bool_decide (taskId t = overId)) (selectedTasks inst) in
        [ReorderTasks (instanceId inst) oldIndex newIndex]
      else []
  | _, _ => []
  end.

End TaskList.

(** ** The onboarding overlay *)

Module Onboarding.

Local Open Scope nat_scope.

(** The slice of [useAppStore] the overlay reads.  React compares the
    two records by reference, so each carries the identity of the
    object currently held by the store; a store write installs a fresh
    object. *)
Record Store := mkStore {
  onboardingCompleted : bool;
  activeInstanceId : option string;
  instanceConnectionStatus : gmap string string;
  connectionStatusRef : nat;
  instanceResourceLoaded : gmap string bool;
  resourceLoadedRef : nat;
  rightPanelWidth : Z;
}.

(** The callbacks the component hands to [setTimeout]. *)
Inductive Callback :=
| ShowOverlay     (* [() => setIsVisible(true)] *)
| FinishExit.     (* [() => { setIsVisible(false); setOnboardingCompleted(true) }] *)

Record Timer := mkTimer { tid : nat; due : nat; callback : Callback }.

(** Dependency array of the second effect. *)
Definition Deps2 : Type := bool * bool * option string * nat * nat.

(** Component instance: the [useState] cells, the ref, and what React
    remembers about each effect (last dependencies, pending cleanup). *)
Record Comp := mkComp {
  mounted : bool;
  isVisible : bool;
  isExiting : bool;
  timeoutRef : option nat;
  cleanup1 : bool;
  deps1 : option bool;
  deps2 : option Deps2;
}.

(** The page: store, component, clock in milliseconds and timer queue. *)
Record World := mkWorld {
  store : Store;
  comp : Comp;
  now : nat;
  nextTimerId : nat;
  timers : list Timer;
}.

Definition setComp (f : Comp → Comp) (w : World) : World :=
  mkWorld (store w) (f (comp w)) (now w) (nextTimerId w) (timers w).

Definition setStore (f : Store → Store) (w : World) : World :=
  mkWorld (f (store w)) (comp w) (now w) (nextTimerId w) (timers w).

(** [setTimeout(cb, delay)]: returns the fresh handle. *)
Definition setTimeout (cb : Callback) (delay : nat) (w : World) : nat * World :=
  (nextTimerId w,
   mkWorld (store w) (comp w) (now w) (S (nextTimerId w))
           (timers w ++ [mkTimer (nextTimerId w) (now w + delay) cb])).

Definition clearTimeout (id : nat) (w : World) : World :=
  mkWorld (store w) (comp w) (now w) (nextTimerId w)
          (filter (λ t, tid t ≠ id) (timers w)).

(** [setIsVisible], a no-op once the component is gone. *)
Definition setIsVisible (b : bool) : World → World :=
  setComp (λ c, if mounted c
                then mkComp (mounted c) b (isExiting c) (timeoutRef c)
                            (cleanup1 c) (deps1 c) (deps2 c)
                else c).

Definition setIsExiting (b : bool) : World → World :=
  setComp (λ c, if mounted c
                then mkComp (mounted c) (isVisible c) b (timeoutRef c)
                            (cleanup1 c) (deps1 c) (deps2 c)
                else c).

Definition setOnboardingCompleted (b : bool) : World → World :=
  setStore (λ s, mkStore b (activeInstanceId s)
                         (instanceConnectionStatus s) (connectionStatusRef s)
                         (instanceResourceLoaded s) (resourceLoadedRef s)
                         (rightPanelWidth s)).

(** [handleDismiss]: the handle of the exit timer is dropped. *)
Definition handleDismiss (w : World) : World :=
  snd (setTimeout FinishExit 200 (setIsExiting true w)).

(** First effect, dependencies [[onboardingCompleted]]. *)
Definition effect1 (w : World) : World :=
  if onboardingCompleted (store w) then
    setComp (λ c, mkComp (mounted c) (isVisible c) (isExiting c) (timeoutRef c)
                         false (deps1 c) (deps2 c)) w
  else
    let '(id, w') := setTimeout ShowOverlay 500 w in
    setComp (λ c, mkComp (mounted c) (isVisible c) (isExiting c) (Some id)
                         true (deps1 c) (deps2 c)) w'.

(** Its cleanup: [if (timeoutRef.current) clearTimeout(timeoutRef.current)]. *)
Definition cleanupEffect1 (w : World) : World :=
  if cleanup1 (comp w) then
    let w' := match timeoutRef (comp w) with
              | Some id => if bool_decide (id = 0) then w else clearTimeout id w
              | None => w
              end in
    setComp (λ c, mkComp (mounted c) (isVisible c) (isExiting c) (timeoutRef c)
                         false (deps1 c) (deps2 c)) w'
  else w.

(** The active instance is connected and its resources are loaded. *)
Definition connectedAndLoaded (s : Store) : bool :=
  match activeInstanceId s with
  | Some id =>
      Js.truthyId (Some id)
      && bool_decide (instanceConnectionStatus s !! id = Some "Connected"%string)
      && Js.truthy (instanceResourceLoaded s !! id)
  | None => false
  end.

(** Second effect: the connection watcher. *)
Definition effect2 (w : World) : World :=
  if negb (isVisible (comp w)) || onboardingCompleted (store w) then w
  else
    let currentInstanceId := activeInstanceId (store w) in
    if negb (Js.truthyId currentInstanceId) then w
    else
      let key := default ""%string currentInstanceId in
      let isConnected :=
        bool_decide (instanceConnectionStatus (store w) !! key = Some "Connected"%string) in
      let isResourceLoaded := Js.truthy (instanceResourceLoaded (store w) !! key) in
      if isConnected && isResourceLoaded then handleDismiss w else w.

Definition watched (visible completed : bool) (s : Store) : Deps2 :=
  (visible, completed, activeInstanceId s,
   connectionStatusRef s, resourceLoadedRef s).

Definition currentDeps2 (w : World) : Deps2 :=
  watched (isVisible (comp w)) (onboardingCompleted (store w)) (store w).

(** React's commit after a render: every effect whose dependencies
    changed is cleaned up and run again, in declaration order. *)
Definition commit (w : World) : World :=
  if mounted (comp w) then
    let d1 := onboardingCompleted (store w) in
    let w1 :=
      if bool_decide (deps1 (comp w) = Some d1) then w
      else setComp (λ c, mkComp (mounted c) (isVisible c) (isExiting c)
                                (timeoutRef c) (cleanup1 c) (Some d1) (deps2 c))
                   (effect1 (cleanupEffect1 w)) in
    let d2 := currentDeps2 w1 in
    if bool_decide (deps2 (comp w1) = Some d2) then w1
    else setComp (λ c, mkComp (mounted c) (isVisible c) (isExiting c)
                              (timeoutRef c) (cleanup1 c) (deps1 c) (Some d2))
                 (effect2 w1)
  else w.

Definition runCallback (cb : Callback) (w : World) : World :=
  match cb with
  | ShowOverlay => setIsVisible true w
  | FinishExit => setOnboardingCompleted true (setIsVisible false w)
  end.

(** Fire the timers of [dueNow] that are still queued, oldest first. *)
Fixpoint fire (dueNow : list Timer) (w : World) : World :=
  match dueNow with
  | [] => w
  | t :: rest =>
      if bool_decide (tid t ∈ tid <$> timers w)
      then fire rest (commit (runCallback (callback t) (clearTimeout (tid t) w)))
      else fire rest w
  end.

(** One millisecond passes. *)
Definition tick (w : World) : World :=
  let w' := mkWorld (store w) (comp w) (S (now w)) (nextTimerId w) (timers w) in
  fire (filter (λ t, due t ≤ now w') (timers w')) w'.

Fixpoint advance (ms : nat) (w : World) : World :=
  match ms with
  | O => w
  | S n => advance n (tick w)
  end.

(** The page before the component mounts; timer handles start at 1. *)
Definition page (s : Store) : World :=
  mkWorld s (mkComp false false false None false None None) 0 1 [].

Definition mount (w : World) : World :=
  commit (setComp (λ _, mkComp true false false None false None None) w).

Definition unmount (w : World) : World :=
  setComp (λ c, mkComp false (isVisible c) (isExiting c) (timeoutRef c)
                       (cleanup1 c) (deps1 c) (deps2 c))
          (cleanupEffect1 w).

(** What the component paints: [null] unless [isVisible]. *)
Record Overlay := mkOverlay {
  exiting : bool;
  cardTop : Z; cardHeight : Z; cardRight : Z; cardWidth : Z;
  rightMaskWidth : Z;
}.

Definition render (w : World) : option Overlay :=
  if mounted (comp w) && isVisible (comp w) then
    let width := (rightPanelWidth (store w) - 12)%Z in
    Some (mkOverlay (isExiting (comp w)) 79 222 5 width (5 + width)%Z)
  else None.

(** Events: the component's lifetime, the clock, the user, the store. *)
Inductive Event :=
| Mount
| Unmount
| Advance (ms : nat)
| DismissClick
| ConnectionStatus (id status : string)
| ResourceLoaded (id : string) (loaded : bool)
| ActiveInstance (id : option string).

Definition step (e : Event) (w : World) : World :=
  match e with
  | Mount => mount w
  | Unmount => unmount w
  | Advance ms => advance ms w
  | DismissClick =>
      if bool_decide (is_Some (render w)) then commit (handleDismiss w) else w
  | ConnectionStatus id status =>
      commit (setStore (λ s, mkStore (onboardingCompleted s) (activeInstanceId s)
                  (<[id := status]> (instanceConnectionStatus s))
                  (S (connectionStatusRef s))
                  (instanceResourceLoaded s) (resourceLoadedRef s)
                  (rightPanelWidth s)) w)
  | ResourceLoaded id b =>
      commit (setStore (λ s, mkStore (onboardingCompleted s) (activeInstanceId s)
                  (instanceConnectionStatus s) (connectionStatusRef s)
                  (<[id := b]> (instanceResourceLoaded s))
                  (S (resourceLoadedRef s))
                  (rightPanelWidth s)) w)
  | ActiveInstance id =>
      commit (setStore (λ s, mkStore (onboardingCompleted s) id
                  (instanceConnectionStatus s) (connectionStatusRef s)
                  (instanceResourceLoaded s) (resourceLoadedRef s)
                  (rightPanelWidth s)) w)
  end.

Definition run (es : list Event) (w : World) : World :=
  foldl (λ w e, step e w) w es.

(** Milliseconds covered by a list of events. *)
Definition elapsed (es : list Event) : nat :=
  foldr (λ e n, match e with Advance ms => ms + n | _ => n end) 0 es.

(** Events that leave the component mounted: time, the user, the store. *)
Definition ambient (e : Event) : bool :=
  match e with
  | Mount | Unmount => false
  | _ => true
  end.

(** Ambient events that take no time. *)
Definition instant (e : Event) : bool :=
  match e with
  | DismissClick | ConnectionStatus _ _ | ResourceLoaded _ _ | ActiveInstance _ => true
  | _ => false
  end.

(** *** Phases of a mounted overlay

    The four states of the overlay's life, as shapes of the page:
    waiting for the display timer due at [t0]; shown and idle; leaving,
    with at least one exit timer queued; and over. *)

Inductive PendingAt (t0 : nat) : World → Prop :=
| pending_at s id n nx :
    onboardingCompleted s = false → id ≠ 0 → n < t0 →
    PendingAt t0
      (mkWorld s
         (mkComp true false false (Some id) true (Some false)
                 (Some (watched false false s)))
         n nx [mkTimer id t0 ShowOverlay]).

Inductive Shown : World → Prop :=
| shown s ref n nx :
    onboardingCompleted s = false → connectedAndLoaded s = false →
    Shown
      (mkWorld s
         (mkComp true true false ref true (Some false)
                 (Some (watched true false s)))
         n nx []).

(** Every queued timer is an exit timer due within 200ms, none earlier
    than [lo]. *)
Inductive Leaving (lo : nat) : World → Prop :=
| leaving s ref n nx ts :
    onboardingCompleted s = false → ts ≠ [] →
    Forall (λ t, callback t = FinishExit ∧ n < due t ≤ n + 200 ∧ lo ≤ due t) ts →
    Leaving lo
      (mkWorld s
         (mkComp true true true ref true (Some false)
                 (Some (watched true false s)))
         n nx ts).

Definition Over (w : World) : Prop :=
  mounted (comp w) = true
  ∧ isVisible (comp w) = false
  ∧ onboardingCompleted (store w) = true
  ∧ deps1 (comp w) = Some true
  ∧ Forall (λ t, callback t = FinishExit) (timers w).

(** The life of an overlay whose display timer is due at [t0]. *)
Definition Phase (t0 : nat) (w : World) : Prop :=
  PendingAt t0 w
  ∨ (Shown w ∧ t0 ≤ now w)
  ∨ (Leaving (t0 + 200) w ∧ t0 ≤ now w)
  ∨ (Over w ∧ t0 + 200 ≤ now w).

(** An overlay that is leaving with an exit timer due by [T], or over. *)
Definition ExitingBy (T : nat) (w : World) : Prop :=
  (∃ lo, Leaving lo w ∧ Exists (λ t, due t ≤ T) (timers w)) ∨ Over w.

(** An overlay on its way out: painted with the exit animation now,
    and gone with the flag stored once 200ms have passed, whatever
    else happens meanwhile. *)
Definition Dismissing (w : World) : Prop :=
  is_Some (render w)
  ∧ isExiting (comp w) = true
  ∧ ∀ es, forallb ambient es = true → 200 ≤ elapsed es →
      render (run es w) = None
      ∧ onboardingCompleted (store (run es w)) = true.

End Onboarding.

(** ** Sample data used to exercise the definitions *)

Module Sample.

Definition startUp : SelectedTask := mkTask "a" "StartUp" None true false ∅.
Definition fight : SelectedTask := mkTask "b" "Fight" None true false ∅.
Definition shutdown : SelectedTask := mkTask "c" "Shutdown" None false false ∅.

Definition threeTasks : Instance :=
  mkInstance "inst-1" [startUp; fight; shutdown].

(** Menu entries whose action is a plain name. *)
Definition runEntry : ContextMenu.MenuItem string :=
  ContextMenu.mkMenuItem "run" "Run" None None None None None None
                         (Some "run"%string) None.

Definition greyEntry : ContextMenu.MenuItem string :=
  ContextMenu.mkMenuItem "run" "Run" None None (Some true) None None None
                         (Some "run"%string) None.

(** A row whose definition resolves and declares one option key. *)
Definition interface : ProjectInterface :=
  mkInterface [ mkTaskDef "StartUp" [83; 116; 97; 114; 116]%N (Some ["mode"%string]);
                mkTaskDef "Fight" [70; 105; 103; 104; 116]%N None ].

Definition storeView : TaskItem.StoreView :=
  TaskItem.mkStoreView (Some interface) (Some threeTasks).

Definition rowProps : TaskItem.Props := TaskItem.mkProps "inst-1" startUp.

(** The store after the interface was reloaded without [StartUp]. *)
Definition staleView : TaskItem.StoreView :=
  TaskItem.mkStoreView
    (Some (mkInterface [ mkTaskDef "Fight" [70; 105; 103; 104; 116]%N None ]))
    (Some threeTasks).

(** The row while its name is edited, the buffer holding a space and a tab. *)
Definition editingRow : TaskItem.State :=
  TaskItem.mkSt true [32; 9]%N ContextMenu.initialState.

(** A first run: the flag unset, one instance, nothing connected. *)
Definition firstRun : Onboarding.Store :=
  Onboarding.mkStore false (Some "inst-1"%string) ∅ 0 ∅ 0 320.

(** The same page with the instance's resources already loaded. *)
Definition loadedRun : Onboarding.Store :=
  Onboarding.mkStore false (Some "inst-1"%string) ∅ 0
                     {[ "inst-1"%string := true ]} 0 320.

(** A later run: the flag is already stored. *)
Definition laterRun : Onboarding.Store :=
  Onboarding.mkStore true (Some "inst-1"%string)
                     {[ "inst-1"%string := "Connected"%string ]} 0
                     {[ "inst-1"%string := true ]} 0 320.

End Sample.

(** ** ContextMenu.tsx: dismissal listeners of the menu component *)

Module MenuListeners.

(** What the first effect of [ContextMenu] keeps on the page: the
    zero-delay timer, the two document listeners, and the calls made to
    [onClose] so far.  [menuRef.current] is set while the menu is
    mounted. *)
Record Page := mkPage {
  menuMounted : bool;
  timerPending : bool;
  mousedownListener : bool;
  keydownListener : bool;
  closeCalls : nat;
}.

Definition blank : Page := mkPage false false false false 0.

(** The effect body: only the deferred registration is scheduled. *)
Definition setup (p : Page) : Page :=
  mkPage (menuMounted p) true (mousedownListener p) (keydownListener p)
         (closeCalls p).

(** Its cleanup: [clearTimeout(timer)] and both [removeEventListener]. *)
Definition cleanup (p : Page) : Page :=
  mkPage (menuMounted p) false false false (closeCalls p).

(** [handleClickOutside]; [inside] tells whether the menu contains the
    event target. *)
Definition handleClickOutside (inside : bool) (p : Page) : Page :=
  if menuMounted p && negb inside
  then mkPage (menuMounted p) (timerPending p) (mousedownListener p)
              (keydownListener p) (S (closeCalls p))
  else p.

Definition handleEscape (key : string) (p : Page) : Page :=
  if bool_decide (key = "Escape"%string)
  then mkPage (menuMounted p) (timerPending p) (mousedownListener p)
              (keydownListener p) (S (closeCalls p))
  else p.

Inductive PageEvent :=
| MountMenu
| OnCloseChanged          (* the effect's dependency changed *)
| RunTimers               (* the event loop runs due timers *)
| MouseDown (inside : bool)
| KeyDown (key : string)
| UnmountMenu.

Definition step (e : PageEvent) (p : Page) : Page :=
  match e with
  | MountMenu =>
      setup (mkPage true (timerPending p) (mousedownListener p)
                    (keydownListener p) (closeCalls p))
  | OnCloseChanged => if menuMounted p then setup (cleanup p) else p
  | RunTimers =>
      if timerPending p
      then mkPage (menuMounted p) false true true (closeCalls p)
      else p
  | MouseDown inside =>
      if mousedownListener p then handleClickOutside inside p else p
  | KeyDown key => if keydownListener p then handleEscape key p else p
  | UnmountMenu =>
      let p' := cleanup p in
      mkPage false (timerPending p') (mousedownListener p')
             (keydownListener p') (closeCalls p')
  end.

Definition run (es : list PageEvent) (p : Page) : Page :=
  foldl (λ p e, step e p) p es.

(** Pointer and keyboard input. *)
Definition input (e : PageEvent) : bool :=
  match e with MouseDown _ | KeyDown _ => true | _ => false end.

(** The inputs that dismiss an open menu. *)
Definition dismisses (e : PageEvent) : bool :=
  match e with
  | MouseDown inside => negb inside
  | KeyDown key => bool_decide (key = "Escape"%string)
  | _ => false
  end.

(** Events that neither mount the menu nor re-run its effect. *)
Definition afterlife (e : PageEvent) : bool :=
  match e with MountMenu | OnCloseChanged => false | _ => true end.

End MenuListeners.

(** ** ContextMenu.tsx: calls to the [useContextMenu] hook *)

Module MenuHook.

Import ContextMenu.

Inductive Call (A : Type) :=
| ShowCall (clientX clientY : Z) (its : list (MenuItem A))
| HideCall.
Arguments ShowCall {A}. Arguments HideCall {A}.

Definition call {A} (c : Call A) (s : ContextMenuState A) : ContextMenuState A :=
  match c with
  | ShowCall cx cy its => show cx cy its s
  | HideCall => hide s
  end.

Definition calls {A} (cs : list (Call A)) (s : ContextMenuState A)
    : ContextMenuState A :=
  foldl (λ s c, call c s) s cs.

(** Position and items of the most recent [ShowCall], [d] if none. *)
Fixpoint lastShown {A} (cs : list (Call A)) (d : MenuPosition * list (MenuItem A))
    : MenuPosition * list (MenuItem A) :=
  match cs with
  | [] => d
  | ShowCall cx cy its :: cs' => lastShown cs' (mkPos cx cy, its)
  | HideCall :: cs' => lastShown cs' d
  end.

Definition isShow {A} (c : Call A) : bool :=
  match c with ShowCall _ _ _ => true | HideCall => false end.

End MenuHook.

(** ** The task list: its context menu and its three renderings *)

Module TaskListView.

Import ContextMenu.

(** Click actions carried by the list menu. *)
Inductive ListAction :=
| SetShowAddTaskPanel (visible : bool)
| SelectAllTasks (instanceId : string) (enabled : bool)
| CollapseAllTasks (instanceId : string) (expanded : bool).

Section List.
Variable t : string → string.

(** [handleListContextMenu]. *)
Definition handleListContextMenu (instance : option Instance)
    (showAddTaskPanel : bool) (clientX clientY : Z)
    (ms : ContextMenuState ListAction) : ContextMenuState ListAction :=
  match instance with
  | None => ms
  | Some inst =>
      let tasks := selectedTasks inst in
      let hasEnabledTasks := existsb enabled tasks in
      let hasExpandedTasks := existsb expanded tasks in
      let hasTasks := bool_decide (0 < length tasks)%nat in
      let menuItems :=
        [ mkMenuItem "add" (t "contextMenu.addTask") (Some "Plus"%string)
                     None None None None None
                     (Some (SetShowAddTaskPanel (negb showAddTaskPanel))) None ]
        ++ (if hasTasks
            then [ mkMenuItem "divider-1" "" None None None None None None None
                              (Some true);
                   mkMenuItem "select-all"
                     (if hasEnabledTasks then t "contextMenu.deselectAll"
                      else t "contextMenu.selectAll")
                     (Some (if hasEnabledTasks then "Square" else "CheckSquare")%string)
                     None None None None None
                     (Some (SelectAllTasks (instanceId inst) (negb hasEnabledTasks)))
                     None;
                   mkMenuItem "collapse-all"
                     (if hasExpandedTasks then t "contextMenu.collapseAllTasks"
                      else t "contextMenu.expandAllTasks")
                     (Some (if hasExpandedTasks then "ChevronUp" else "ChevronDown")%string)
                     None None None None None
                     (Some (CollapseAllTasks (instanceId inst) (negb hasExpandedTasks)))
                     None ]
            else []) in
      show clientX clientY menuItems ms
  end.

(** What [TaskList] returns. *)
Inductive ListView :=
| NoInstance
| EmptyList (menu : option (list (MenuItem ListAction) * MenuPosition))
| SortableList (sortableItems : list string)
               (rows : list (string * TaskItem.Props))
               (menu : option (list (MenuItem ListAction) * MenuPosition)).

Definition openMenu (ms : ContextMenuState ListAction)
    : option (list (MenuItem ListAction) * MenuPosition) :=
  if isOpen ms then Some (items ms, position ms) else None.

Definition render (instance : option Instance)
    (ms : ContextMenuState ListAction) : ListView :=
  match instance with
  | None => NoInstance
  | Some inst =>
      let tasks := selectedTasks inst in
      if bool_decide (length tasks = 0%nat) then EmptyList (openMenu ms)
      else SortableList
             (taskId <$> tasks)
             ((λ task, (taskId task, TaskItem.mkProps (instanceId inst) task)) <$> tasks)
             (openMenu ms)
  end.

(** The menu a view shows, if any. *)
Definition shownMenu (v : ListView)
    : option (list (MenuItem ListAction) * MenuPosition) :=
  match v with
  | NoInstance => None
  | EmptyList m | SortableList _ _ m => m
  end.

(** A click on an entry of the list menu: the actions run and whether
    the menu is still open. *)
Definition menuClick (item : MenuItem ListAction)
    (ms : ContextMenuState ListAction)
    : ContextMenuState ListAction * list ListAction :=
  foldl (λ r e, match e with
                | Invoke a => (fst r, snd r ++ [a])
                | Close => (hide (fst r), snd r)
                end)
        (ms, []) (click (MenuItemComponent item)).

End List.

End TaskListView.

(** ** The logs panel *)

Module LogsPanel.

Import ContextMenu.

Inductive LogType := Info | Success | Warning | Error.

Record LogEntry := mkLog {
  logId : string;
  timestamp : Z;
  logType : LogType;
  message : string;
}.

(** Click actions of the panel's menu.  [handleCopyAll] closes over the
    [logs] of the render in which the menu was opened. *)
Inductive LogAction :=
| CopyAll (logsAtOpen : list LogEntry)
| Clear
| ToggleSidePanelExpanded.

Inductive Effect :=
| ClipboardWrite (text : string)
| ToggleSidePanel.

Record State := mkSt {
  logs : list LogEntry;
  menuState : ContextMenuState LogAction;
}.

Definition initial : State := mkSt [] initialState.

(** The line feed, code 10. *)
Definition lineFeed : Ascii.ascii :=
  Ascii.Ascii false true false true false false false false.

Definition newline : string := String lineFeed "".

Section Panel.
(** [Date.prototype.toLocaleTimeString] and the translation function. *)
Variable toLocaleTimeString : Z → string.
Variable t : string → string.

Definition handleClear (st : State) : State := mkSt [] (menuState st).

Definition line (log : LogEntry) : string :=
  ("[" ++ toLocaleTimeString (timestamp log) ++ "] " ++ message log)%string.

(** [logs.map(...).join('\n')]. *)
Definition copyText (ls : list LogEntry) : string :=
  String.concat newline (line <$> ls).

Definition handleCopyAll (ls : list LogEntry) : list Effect :=
  [ClipboardWrite (copyText ls)].

Definition getLogColor (ty : LogType) : string :=
  match ty with
  | Success => "text-success"
  | Warning => "text-warning"
  | Error => "text-error"
  | _ => "text-text-secondary"
  end.

Definition handleContextMenu (sidePanelExpanded : bool) (clientX clientY : Z)
    (st : State) : State :=
  let empty := bool_decide (length (logs st) = 0%nat) in
  let menuItems :=
    [ mkMenuItem "copy" (t "logs.copyAll") (Some "Copy"%string) None
                 (Some empty) None None None (Some (CopyAll (logs st))) None;
      mkMenuItem "clear" (t "logs.clear") (Some "Trash2"%string) None
                 (Some empty) (Some true) None None (Some Clear) None;
      mkMenuItem "divider-1" "" None None None None None None None (Some true);
      mkMenuItem "toggle-panel"
                 (if sidePanelExpanded then t "logs.collapse" else t "logs.expand")
                 (Some (if sidePanelExpanded then "ChevronUp" else "ChevronDown")%string)
                 None None None None None (Some ToggleSidePanelExpanded) None ] in
  mkSt (logs st) (show clientX clientY menuItems (menuState st)).

(** The three header buttons. *)
Inductive HeaderButton := ToggleButton | CopyButton | ClearButton.

Definition buttonDisabled (b : HeaderButton) (st : State) : bool :=
  match b with
  | ToggleButton => false
  | CopyButton | ClearButton => bool_decide (length (logs st) = 0%nat)
  end.

(** A click on a header button; a disabled button receives none. *)
Definition headerClick (b : HeaderButton) (st : State) : State * list Effect :=
  if buttonDisabled b st then (st, [])
  else match b with
       | ToggleButton => (st, [ToggleSidePanel])
       | CopyButton => (st, handleCopyAll (logs st))
       | ClearButton => (handleClear st, [])
       end.

(** The scroll area: the placeholder, or the lines followed by the
    sentinel the auto-scroll effect looks for. *)
Inductive Body :=
| NoLogs
| Lines (rows : list (string * string * string * string)).

Definition body (st : State) : Body :=
  if bool_decide (length (logs st) = 0%nat) then NoLogs
  else Lines ((λ log, (logId log, getLogColor (logType log),
                       ("[" ++ toLocaleTimeString (timestamp log) ++ "]")%string,
                       message log)) <$> logs st).

(** The effect on [[logs]]: it scrolls when the sentinel is mounted. *)
Definition scrollsIntoView (st : State) : bool :=
  match body st with NoLogs => false | Lines _ => true end.

Definition perform (e : ClickEffect LogAction) (r : State * list Effect)
    : State * list Effect :=
  let '(st, out) := r in
  match e with
  | Invoke (CopyAll ls) => (st, out ++ handleCopyAll ls)
  | Invoke Clear => (handleClear st, out)
  | Invoke ToggleSidePanelExpanded => (st, out ++ [ToggleSidePanel])
  | Close => (mkSt (logs st) (hide (menuState st)), out)
  end.

Definition menuClick (item : MenuItem LogAction) (st : State)
    : State * list Effect :=
  foldl (λ r e, perform e r) (st, []) (click (MenuItemComponent item)).

End Panel.

(** Splitting a text at its line breaks. *)
Fixpoint splitLines (s : string) : list string :=
  match s with
  | EmptyString => [EmptyString]
  | String c rest =>
      if Ascii.eqb c lineFeed then EmptyString :: splitLines rest
      else match splitLines rest with
           | [] => [String c EmptyString]
           | l :: ls => String c l :: ls
           end
  end.

Fixpoint hasLineBreak (s : string) : bool :=
  match s with
  | EmptyString => false
  | String c rest => Ascii.eqb c lineFeed || hasLineBreak rest
  end.

End LogsPanel.

(** ** The onboarding overlay: geometry of the dimmed backdrop *)

Module OverlayLayout.

Import Onboarding.
Local Open Scope Z_scope.

(** A rectangle of the viewport, by the coordinates of its edges. *)
Record Box := mkBox { boxLeft : Z; boxTop : Z; boxRight : Z; boxBottom : Z }.

Section Viewport.
Variables viewportWidth viewportHeight : Z.
Variable o : Overlay.

(** [top-0 left-0 bottom-0], [right: rightMaskWidth]. *)
Definition leftMask : Box :=
  mkBox 0 0 (viewportWidth - rightMaskWidth o) viewportHeight.

(** [top-0 right-0], [width: rightMaskWidth], [height: cardTop]. *)
Definition topMask : Box :=
  mkBox (viewportWidth - rightMaskWidth o) 0 viewportWidth (cardTop o).

(** [right-0 bottom-0], [width: rightMaskWidth], [top: cardTop + cardHeight]. *)
Definition bottomMask : Box :=
  mkBox (viewportWidth - rightMaskWidth o) (cardTop o + cardHeight o)
        viewportWidth viewportHeight.

(** The highlight frame: [top], [right], [width], [height] of the card. *)
Definition highlight : Box :=
  mkBox (viewportWidth - cardRight o - cardWidth o) (cardTop o)
        (viewportWidth - cardRight o) (cardTop o + cardHeight o).

Definition masks : list Box := [leftMask; topMask; bottomMask].

End Viewport.

(** A point strictly inside a box, and a point of the box or its edge. *)
Definition inside (b : Box) (x y : Z) : Prop :=
  boxLeft b < x < boxRight b ∧ boxTop b < y < boxBottom b.

Definition within (b : Box) (x y : Z) : Prop :=
  boxLeft b <= x <= boxRight b ∧ boxTop b <= y <= boxBottom b.

End OverlayLayout.

(** ** More sample data *)

Module Sample2.

Definition twoLogs : list LogsPanel.LogEntry :=
  [ LogsPanel.mkLog "l1" 1000 LogsPanel.Info "started";
    LogsPanel.mkLog "l2" 2000 LogsPanel.Error "failed" ].

(** A clock that prints nothing but a fixed text. *)
Definition clock (_ : Z) : string := "12:00:00".

Definition logsShown : LogsPanel.State :=
  LogsPanel.mkSt twoLogs ContextMenu.initialState.

(** A row being renamed, with a name typed in. *)
Definition typedRow : TaskItem.State :=
  TaskItem.mkSt true [32; 72; 105; 32]%N ContextMenu.initialState.

End Sample2.

(** ** JavaScript numbers *)

(** Every number of the positioning effect is an IEEE 754 binary64
    value: [clientX]/[clientY], the fractional sizes that
    [getBoundingClientRect] measures, and [window.innerWidth].  A finite
    binary64 value is a rational, so numbers are kept as [Q];
    comparisons and [Math.max] are exact, and [+] and [-] return the
    exact result rounded to the nearest binary64 value, ties to even
    ([round]).  Overflow to an infinity and NaN are outside the model:
    the operands here are screen coordinates. *)
Module Double.

Definition pow2 (k : Z) : Q := inject_Z (2 ^ k).

(** [scaled e q] is [q / 2^e] and [unscaled e m] is [m * 2^e]. *)
Definition scaled (e : Z) (q : Q) : Q :=
  if 0 <=? e then (q / pow2 e)%Q else (q * pow2 (- e))%Q.

Definition unscaled (e : Z) (m : Z) : Q :=
  if 0 <=? e then inject_Z (m * 2 ^ e) else Qmake m (Z.to_pos (2 ^ (- e))).

(** The integer nearest to a non-negative rational, ties to even. *)
Definition nearestEven (q : Q) : Z :=
  let f := Qfloor q in
  match (q - inject_Z f ?= 1 # 2)%Q with
  | Lt => f
  | Gt => f + 1
  | Eq => if Z.even f then f else f + 1
  end.

(** The exponent of the last place of [q]: the [e] with
    [2^52 <= |q| / 2^e < 2^53], and [-1074] for subnormal [q].  The
    first guess from the bit lengths of numerator and denominator is
    low by at most one. *)
Definition exponent (q : Q) : Z :=
  let e0 := Z.log2 (Z.abs (Qnum q)) - Z.log2 (Zpos (Qden q)) - 53 in
  let e1 := if 2 ^ 53 <=? Qfloor (scaled e0 (Qabs q)) then e0 + 1 else e0 in
  Z.max e1 (-1074).

(** [roundTiesToEven] to 53 significant bits. *)
Definition round (q : Q) : Q :=
  if Qeq_bool q 0 then 0%Q
  else
    let e := exponent q in
    let m := nearestEven (scaled e (Qabs q)) in
    if Qnum q <? 0 then (- unscaled e m)%Q else unscaled e m.

(** [a + b], [a - b], [a > b] and [Math.max(a, b)]. *)
Definition add (a b : Q) : Q := round (a + b).
Definition sub (a b : Q) : Q := round (a - b).
Definition gt (a b : Q) : bool := negb (Qle_bool a b).
Definition max (a b : Q) : Q := if Qle_bool a b then b else a.

(** The rational value of a finite binary64 number of the kernel, used
    to compare [round] with the machine's own arithmetic. *)
Definition ofFloat (f : float) : Q :=
  match Prim2SF f with
  | S754_finite s m e =>
      let v := unscaled e (Z.pos m) in
      if s then (- v)%Q else v
  | _ => 0%Q
  end.

End Double.

(** ** Menu positioning on JavaScript numbers *)

(** The positioning effect of [ContextMenu] (lines 184-210) with its
    numbers as the code has them.  [ContextMenu.adjustPosition] above is
    the same computation on whole pixels, where no operation rounds. *)
Module Placement.

Record Position64 := mkPos64 { x64 : Q; y64 : Q }.
Record Rect64 := mkRect64 { width64 : Q; height64 : Q }.

Definition adjustPosition64 (rect : Rect64) (viewportWidth viewportHeight : Q)
    (position : Position64) : Position64 :=
  let x0 := x64 position in
  let y0 := y64 position in
  let x1 := if Double.gt (Double.add x0 (width64 rect)) viewportWidth
            then Double.sub (Double.sub viewportWidth (width64 rect)) 8 else x0 in
  let y1 := if Double.gt (Double.add y0 (height64 rect)) viewportHeight
            then Double.sub (Double.sub viewportHeight (height64 rect)) 8 else y0 in
  mkPos64 (Double.max 8 x1) (Double.max 8 y1).

(** The same statements on the kernel's binary64 numbers, one axis. *)
Definition adjustAxisFloat (size viewport anchor : float) : float :=
  let a1 := if (viewport <? anchor + size)%float
            then (viewport - size - 8)%float else anchor in
  if (a1 <? 8)%float then 8%float else a1.

(** The panel placed at [p] lies in [[lo_x, hi_x] x [lo_y, hi_y]]. *)
Definition inBox64 (lo_x hi_x lo_y hi_y : Q) (rect : Rect64) (p : Position64) : Prop :=
  (lo_x <= x64 p ∧ x64 p + width64 rect <= hi_x
   ∧ lo_y <= y64 p ∧ y64 p + height64 rect <= hi_y)%Q.

(** Screen coordinates are taken below [2^18] in magnitude; there one
    rounding moves a result by at most [slack = 2^-33]. *)
Definition pixelBound : Q := 262144.
Definition slack : Q := 1 # 8589934592.
Definition inRange (v : Q) : Prop := (Qabs v <= pixelBound)%Q.

(** The double nearest to 200.3, a fractional measured width. *)
Definition width200_3 : Q := Double.round (2003 # 10).

End Placement.

(** * Properties *)

(** ** Helper lemmas on the JavaScript primitives *)

Lemma findIndex_lower {A} (p : A → bool) (l : list A) : -1 <= Js.findIndex p l.
Proof.
  induction l as [|a l IH]; simpl; [lia|].
  destruct (p a); [lia|]. destruct (Z.ltb_spec (Js.findIndex p l) 0); lia.
Qed.

Lemma findIndex_first {A} (p : A → bool) (l : list A) (i : nat) (a : A) :
  l !! i = Some a → p a = true →
  (∀ (j : nat) b, (j < i)%nat → l !! j = Some b → p b = false) →
  Js.findIndex p l = Z.of_nat i.
Proof.
  revert i. induction l as [|c l IH]; intros i Hi Hp Hbefore; [done|].
  destruct i as [|i]; simpl in *.
  - injection Hi as ->. by rewrite Hp.
  - rewrite (Hbefore 0%nat c); [|lia|done].
    rewrite (IH i Hi Hp).
    + destruct (Z.ltb_spec (Z.of_nat i) 0); lia.
    + intros j b Hj Hb. apply (Hbefore (S j) b); [lia|done].
Qed.

Lemma findIndex_unique_id (tasks : list SelectedTask) (i : nat) (t : SelectedTask) :
  NoDup (taskId <$> tasks) → tasks !! i = Some t →
  Js.findIndex (λ t', bool_decide (taskId t' = taskId t)) tasks = Z.of_nat i.
Proof.
  intros Hnd Hi. apply (findIndex_first _ _ i t Hi).
  - by apply bool_decide_eq_true.
  - intros j b Hj Hb. apply bool_decide_eq_false. intros Heq.
    assert (j = i) as ->; [|lia].
    apply (NoDup_lookup _ _ _ (taskId t) Hnd); rewrite list_lookup_fmap.
    + by rewrite Hb, <- Heq.
    + by rewrite Hi.
Qed.

Lemma find_none {A} (p : A → bool) (l : list A) :
  (∀ a, a ∈ l → p a = false) → Js.find p l = None.
Proof.
  induction l as [|a l IH]; intros H; simpl; [done|].
  rewrite (H a) by left. apply IH. intros b Hb. apply H. by right.
Qed.

Lemma trimStart_whitespace (s : Js.text) :
  forallb Js.isWhiteSpace s = true → Js.trimStart s = [].
Proof.
  induction s as [|c s IH]; simpl; [done|].
  intros [Hc Hs]%andb_prop. rewrite Hc. by apply IH.
Qed.

Lemma trim_whitespace (s : Js.text) :
  forallb Js.isWhiteSpace s = true → Js.trim s = [].
Proof. intros H. unfold Js.trim. by rewrite (trimStart_whitespace s H). Qed.

Lemma trimStart_empty (s : Js.text) :
  Js.trimStart s = [] → forallb Js.isWhiteSpace s = true.
Proof.
  induction s as [|c s IH]; simpl; [done|].
  destruct (Js.isWhiteSpace c); [by apply IH|done].
Qed.

Lemma trimStart_fixed (s : Js.text) :
  Js.trimStart (Js.trimStart s) = Js.trimStart s.
Proof.
  induction s as [|c s IH]; simpl; [done|].
  destruct (Js.isWhiteSpace c) eqn:Hc; [done|]. simpl. by rewrite Hc.
Qed.

(** The trimmed text is empty only for a buffer of white space. *)
Lemma trim_empty (s : Js.text) :
  Js.trim s = [] → forallb Js.isWhiteSpace s = true.
Proof.
  unfold Js.trim, Js.trimEnd. intros H.
  apply (f_equal (@rev N)) in H. rewrite rev_involutive in H. simpl in H.
  apply trimStart_empty in H.
  apply trimStart_empty. rewrite <- trimStart_fixed.
  apply trimStart_whitespace.
  rewrite forallb_forall in H |- *. intros c Hc. apply H.
  by apply in_rev in Hc.
Qed.

Example trim_keeps_inner_space :
  Js.trim [32; 9; 97; 32; 98; 160; 10]%N = [97; 32; 98]%N.
Proof. reflexivity. Qed.

Example findIndex_absent : Js.findIndex (λ n, n =? 5) [1; 2; 3] = -1.
Proof. reflexivity. Qed.

Example findIndex_first_of_two : Js.findIndex (λ n, n =? 2) [1; 2; 3; 2] = 1.
Proof. reflexivity. Qed.

Lemma Forall_filter_keep {A} (P Q : A → Prop) `{∀ x, Decision (Q x)} (l : list A) :
  Forall P l → Forall P (filter Q l).
Proof.
  rewrite !Forall_forall. intros HP x [_ Hx]%list_elem_of_filter. by apply HP.
Qed.

(** ** The task list *)

Section TaskListFacts.
Import TaskList.

(** C1. With the ids of the list pairwise distinct, a drag from the row
    at index [i] onto the row at index [j] with [i ≠ j] issues the single
    command [ReorderTasks] carrying [(i, j)]; a drop on the dragged row
    itself, or with no droppable under the pointer, issues nothing. *)
Theorem handleDragEnd_reorder (inst : Instance) (i j : nat) (ti tj : SelectedTask) :
  NoDup (taskId <$> selectedTasks inst) →
  selectedTasks inst !! i = Some ti →
  selectedTasks inst !! j = Some tj →
  i ≠ j →
  handleDragEnd (Some inst) (mkDragEnd (taskId ti) (Some (taskId tj)))
    = [ReorderTasks (instanceId inst) (Z.of_nat i) (Z.of_nat j)]
  ∧ (∀ a, handleDragEnd (Some inst) (mkDragEnd a (Some a)) = [])
  ∧ (∀ a, handleDragEnd (Some inst) (mkDragEnd a None) = []).
Proof.
  intros Hnd Hi Hj Hij. split; [|split].
  - unfold handleDragEnd; simpl.
    rewrite bool_decide_eq_true_2.
    + by rewrite (findIndex_unique_id _ i ti Hnd Hi),
                 (findIndex_unique_id _ j tj Hnd Hj).
    + intros Heq. apply Hij.
      apply (NoDup_lookup _ _ _ (taskId ti) Hnd); rewrite list_lookup_fmap.
      * by rewrite Hi.
      * by rewrite Hj, Heq.
  - intros a. unfold handleDragEnd; simpl.
    by rewrite bool_decide_eq_false_2 by (intros H; by apply H).
  - done.
Qed.

Lemma handleDragEnd_reorder_witness :
  handleDragEnd (Some Sample.threeTasks) (mkDragEnd "c" (Some "a"))
    = [ReorderTasks "inst-1" 2 0]
  ∧ (∀ a, handleDragEnd (Some Sample.threeTasks) (mkDragEnd a (Some a)) = [])
  ∧ (∀ a, handleDragEnd (Some Sample.threeTasks) (mkDragEnd a None) = []).
Proof.
  apply (handleDragEnd_reorder Sample.threeTasks 2 0
           Sample.shutdown Sample.startUp).
  - apply (bool_decide_unpack _). vm_compute. exact I.
  - reflexivity.
  - reflexivity.
  - lia.
Defined.

End TaskListFacts.

(** ** The menu primitive *)

Section ContextMenuFacts.
Import ContextMenu.

Example adjustPosition_shifts_both :
  adjustPosition (mkRect 200 100) 1000 800 (mkPos 950 790) = mkPos 792 692.
Proof. reflexivity. Qed.

Example adjustPosition_clamps_low :
  adjustPosition (mkRect 200 100) 1000 800 (mkPos 3 (-20)) = mkPos 8 8.
Proof. reflexivity. Qed.

Example positionEffect_unmounted :
  positionEffect None 1000 800 (mkPos 950 790) = None.
Proof. reflexivity. Qed.

(** On whole pixels already, the far margin fails twice: an anchor
    whose panel ends in the last 8 pixels before the viewport edge is
    not shifted, and a panel wider than the viewport minus both margins
    cannot fit. *)
Lemma adjustPosition_margin_counterexample :
  ¬ inBox 8 (1000 - 8) 8 (800 - 8) (mkRect 200 100)
          (adjustPosition (mkRect 200 100) 1000 800 (mkPos 795 100))
  ∧ ¬ inBox 8 (1000 - 8) 8 (800 - 8) (mkRect 990 100)
            (adjustPosition (mkRect 990 100) 1000 800 (mkPos 300 100)).
Proof. split; unfold inBox; vm_compute; intros (_ & H & _); by apply H. Qed.

(** On whole pixels, where no operation rounds: for a panel that fits
    between the two 8-pixel margins, the adjusted box lies within
    [8, viewportWidth] × [8, viewportHeight], and its right (bottom)
    edge stays 8 pixels clear of the viewport edge unless the requested
    anchor put that edge in the last 8 pixels before the viewport
    edge.  The statement on JavaScript numbers follows in section
    [PlacementFacts]. *)
Theorem adjustPosition_in_viewport (rect : Rect) (vw vh : Z) (p : MenuPosition) :
  width rect <= vw - 16 →
  height rect <= vh - 16 →
  let q := adjustPosition rect vw vh p in
  inBox 8 vw 8 vh rect q
  ∧ (¬ (vw - 8 < x p + width rect <= vw) → x q + width rect <= vw - 8)
  ∧ (¬ (vh - 8 < y p + height rect <= vh) → y q + height rect <= vh - 8).
Proof.
  intros Hw Hh q. subst q. unfold adjustPosition, inBox; simpl.
  repeat case_bool_decide; lia.
Qed.

Lemma adjustPosition_in_viewport_witness :
  let q := adjustPosition (mkRect 200 100) 1000 800 (mkPos 950 790) in
  inBox 8 1000 8 800 (mkRect 200 100) q
  ∧ (¬ (1000 - 8 < 950 + 200 <= 1000) → x q + 200 <= 1000 - 8)
  ∧ (¬ (800 - 8 < 790 + 100 <= 800) → y q + 100 <= 800 - 8).
Proof.
  apply (adjustPosition_in_viewport (mkRect 200 100) 1000 800 (mkPos 950 790));
    simpl; lia.
Defined.

(** C3. A click on an entry that is disabled or carries a [children]
    field runs no action and does not close the menu; a click on an
    entry that is no divider, not disabled and without [children] runs
    its [onClick] once and then closes the menu. *)
Theorem handleClick_activation {A} (item : MenuItem A) :
  ((disabled item = Some true ∨ is_Some (children item)) →
     handleClick item = [] ∧ click (MenuItemComponent item) = [])
  ∧ (Js.truthy (divider item) = false →
     disabled item ≠ Some true →
     children item = None →
     ∀ a, onClick item = Some a →
       handleClick item = [Invoke a; Close]
       ∧ click (MenuItemComponent item) = [Invoke a; Close]).
Proof.
  split.
  - intros Hoff.
    assert (handleClick item = []) as Hh.
    { unfold handleClick. destruct Hoff as [-> | Hc]; [done|].
      rewrite (bool_decide_eq_true_2 _ Hc). by rewrite orb_true_r. }
    split; [done|]. unfold MenuItemComponent.
    destruct (Js.truthy (divider item)); simpl; [done|].
    rewrite Hh. by destruct (Js.truthy (disabled item)).
  - intros Hdiv Hen Hch a Ha.
    assert (Js.truthy (disabled item) = false) as Hd.
    { destruct (disabled item) as [[]|]; simpl; congruence. }
    assert (handleClick item = [Invoke a; Close]) as Hh.
    { unfold handleClick. by rewrite Hd, Hch, Ha. }
    split; [done|]. unfold MenuItemComponent. rewrite Hdiv, Hd. by simpl.
Qed.

Lemma handleClick_activation_witness :
  (handleClick Sample.greyEntry = []
   ∧ click (MenuItemComponent Sample.greyEntry) = [])
  ∧ (handleClick Sample.runEntry = [Invoke "run"%string; Close]
     ∧ click (MenuItemComponent Sample.runEntry) = [Invoke "run"%string; Close]).
Proof.
  split.
  - apply (proj1 (handleClick_activation Sample.greyEntry)). by left.
  - apply (proj2 (handleClick_activation Sample.runEntry)); done.
Defined.

(** C10. [hide] only lowers the open flag: the position and the items
    recorded by the last [show] are what they were. *)
Theorem hide_frame {A} (s : ContextMenuState A) :
  isOpen (hide s) = false
  ∧ position (hide s) = position s
  ∧ items (hide s) = items s
  ∧ (∀ cx cy its s0,
       s = show cx cy its s0 →
       position (hide s) = mkPos cx cy ∧ items (hide s) = its).
Proof. repeat split; try done; by subst. Qed.

Lemma hide_frame_witness :
  position (hide (show 40 60 [Sample.runEntry] initialState)) = mkPos 40 60
  ∧ items (hide (show 40 60 [Sample.runEntry] initialState)) = [Sample.runEntry].
Proof.
  apply (proj2 (proj2 (proj2
           (hide_frame (show 40 60 [Sample.runEntry] initialState))))
           40 60 [Sample.runEntry] initialState).
  reflexivity.
Defined.

End ContextMenuFacts.

(** ** Menu positioning on JavaScript numbers *)

Section DoubleFacts.
Import Double.

(** [nearestEven] is within one half of its argument. *)
Lemma nearestEven_close (q : Q) :
  (inject_Z (nearestEven q) - (1 # 2) <= q ∧ q <= inject_Z (nearestEven q) + (1 # 2))%Q.
Proof.
  unfold nearestEven.
  pose proof (Qfloor_le q) as Hlo. pose proof (Qlt_floor q) as Hhi.
  rewrite inject_Z_plus in Hhi. change (inject_Z 1) with 1%Q in Hhi.
  set (f := Qfloor q) in *.
  destruct (Qcompare_spec (q - inject_Z f) (1 # 2)) as [H|H|H].
  - destruct (Z.even f); [|rewrite inject_Z_plus; change (inject_Z 1) with 1%Q]; split; lra.
  - split; lra.
  - rewrite inject_Z_plus; change (inject_Z 1) with 1%Q. split; lra.
Qed.

(** Below [2^20] the last place is at most [2^-32]. *)
Lemma exponent_small (q : Q) :
  (Qabs q <= 1048576)%Q → exponent q <= -32.
Proof.
  intros Hq. unfold exponent.
  destruct q as [n d]. unfold Qabs, Qle in Hq. cbn [Qnum Qden inject_Z] in *.
  assert (Z.log2 (Z.abs n) <= 20 + Z.log2 (Z.pos d)) as Hlog.
  { rewrite <- (Z.log2_mul_pow2 (Z.pos d) 20) by lia.
    apply Z.log2_le_mono. change (2 ^ 20) with 1048576. lia. }
  match goal with |- context [if ?c then _ else _] => destruct c end; lia.
Qed.

(** One rounding of a value below [2^20] in magnitude moves it by at
    most [2^-33]. *)
Lemma round_error (q : Q) :
  (Qabs q <= 1048576)%Q →
  (q - (1 # 8589934592) <= round q ∧ round q <= q + (1 # 8589934592))%Q.
Proof.
  intros Hq. unfold round.
  destruct (Qeq_bool q 0) eqn:Hz.
  { apply Qeq_bool_iff in Hz. split; lra. }
  pose proof (exponent_small q Hq) as He.
  set (e := exponent q) in *.
  pose proof (nearestEven_close (scaled e (Qabs q))) as [Hlo Hhi].
  set (m := nearestEven (scaled e (Qabs q))) in *.
  unfold scaled, unscaled in *.
  replace (0 <=? e) with false in * by (symmetry; apply Z.leb_gt; lia).
  unfold pow2 in *.
  assert (2 ^ 32 <= 2 ^ (- e)) as HP by (apply Z.pow_le_mono_r; lia).
  set (P := 2 ^ (- e)) in *.
  change (2 ^ 32) with 4294967296 in HP.
  set (i := (1 # Z.to_pos P)%Q).
  assert (inject_Z P * i == 1)%Q as Hone.
  { unfold i, Qeq, Qmult, inject_Z; cbn [Qnum Qden]. rewrite Pos.mul_1_l, Z2Pos.id; lia. }
  assert (0 < i ∧ i <= 1 # 4294967296)%Q as [Hi0 Hi1].
  { unfold i, Qlt, Qle; cbn [Qnum Qden]. rewrite Z2Pos.id; lia. }
  assert ((m # Z.to_pos P) == inject_Z m * i)%Q as Hm.
  { unfold i, Qeq, Qmult, inject_Z; cbn [Qnum Qden]. rewrite Pos.mul_1_l; lia. }
  assert (inject_Z m * i - (1 # 8589934592) <= Qabs q
          ∧ Qabs q <= inject_Z m * i + (1 # 8589934592))%Q as [Ha Hb].
  { assert (Qabs q == Qabs q * inject_Z P * i)%Q as Hs by (rewrite <- Qmult_assoc, Hone; ring).
    set (s := Qabs q) in *. set (a := inject_Z m) in *. set (t := (s * inject_Z P)%Q) in *.
    split; nra. }
  destruct (Qnum q <? 0) eqn:Hsign.
  - apply Z.ltb_lt in Hsign.
    assert (Qabs q == - q)%Q as Habs.
    { apply Qabs_neg. destruct q as [n d]. unfold Qle; cbn [Qnum Qden] in *. lia. }
    rewrite Hm. split; lra.
  - apply Z.ltb_ge in Hsign.
    assert (Qabs q == q)%Q as Habs.
    { apply Qabs_pos. destruct q as [n d]. unfold Qle; cbn [Qnum Qden] in *. lia. }
    rewrite Hm. split; lra.
Qed.

(** Integers below [2^53] are binary64 values: rounding keeps them. *)
Lemma nearestEven_integer (q : Q) (z : Z) : (q == inject_Z z)%Q → nearestEven q = z.
Proof.
  intros Hq. unfold nearestEven.
  assert (Qfloor q = z) as -> by (rewrite Hq; apply Qfloor_Z).
  destruct (Qcompare_spec (q - inject_Z z) (1 # 2)) as [H|H|H]; [lra|done|lra].
Qed.

Lemma round_integer (q : Q) (k : Z) :
  (q == inject_Z k)%Q → Z.abs k < 9007199254740992 → (round q == inject_Z k)%Q.
Proof.
  intros Hq Hk. unfold round.
  destruct (Qeq_bool q 0) eqn:Hz.
  { apply Qeq_bool_iff in Hz. lra. }
  assert (Qabs q == inject_Z (Z.abs k))%Q as Habs.
  { rewrite Hq. unfold Qabs, inject_Z. reflexivity. }
  assert (exponent q <= 0) as He.
  { unfold exponent.
    assert (Z.log2 (Z.abs (Qnum q)) <= 53 + Z.log2 (Z.pos (Qden q))) as Hlog.
    { rewrite <- (Z.log2_mul_pow2 (Z.pos (Qden q)) 53) by lia.
      apply Z.log2_le_mono. change (2 ^ 53) with 9007199254740992.
      destruct q as [n d]. unfold Qeq, inject_Z in Hq. cbn [Qnum Qden] in *. nia. }
    set (e0 := Z.log2 (Z.abs (Qnum q)) - Z.log2 (Z.pos (Qden q)) - 53) in *.
    destruct (2 ^ 53 <=? Qfloor (scaled e0 (Qabs q))) eqn:Hc; [|lia].
    destruct (Z.eq_dec e0 0) as [E0|E0]; [|lia].
    apply Z.leb_le in Hc. rewrite E0 in Hc. unfold scaled, pow2 in Hc.
    change (0 <=? 0) with true in Hc. cbn match in Hc.
    assert (Qabs q / inject_Z (2 ^ 0) == inject_Z (Z.abs k))%Q as Hs.
    { rewrite Habs. change (inject_Z (2 ^ 0)) with 1%Q. field. }
    rewrite Hs, Qfloor_Z in Hc. change (2 ^ 53) with 9007199254740992 in Hc. lia. }
  set (e := exponent q) in *.
  assert (nearestEven (scaled e (Qabs q)) = Z.abs k * 2 ^ (- e)) as ->.
  { apply nearestEven_integer. unfold scaled, pow2.
    destruct (0 <=? e) eqn:Hpos.
    - apply Z.leb_le in Hpos. replace e with 0 by lia.
      rewrite Habs. change (inject_Z (2 ^ 0)) with 1%Q.
      change (2 ^ (- 0)) with 1. rewrite Z.mul_1_r. field.
    - rewrite Habs, inject_Z_mult. reflexivity. }
  assert (unscaled e (Z.abs k * 2 ^ (- e)) == inject_Z (Z.abs k))%Q as Hu.
  { unfold unscaled. destruct (0 <=? e) eqn:Hpos.
    - apply Z.leb_le in Hpos. replace e with 0 by lia.
      change (2 ^ (- 0)) with 1. change (2 ^ 0) with 1. by rewrite !Z.mul_1_r.
    - apply Z.leb_gt in Hpos.
      assert (0 < 2 ^ (- e)) by (apply Z.pow_pos_nonneg; lia).
      unfold Qeq, inject_Z; cbn [Qnum Qden]. rewrite Z2Pos.id; lia. }
  assert ((Qnum q <? 0) = (k <? 0)) as ->.
  { destruct q as [n d]. unfold Qeq, inject_Z in Hq. cbn [Qnum Qden] in *.
    destruct (n <? 0) eqn:A, (k <? 0) eqn:B; try reflexivity;
      [apply Z.ltb_lt in A; apply Z.ltb_ge in B|apply Z.ltb_ge in A; apply Z.ltb_lt in B]; nia. }
  destruct (k <? 0) eqn:Hsign; rewrite Hu.
  - apply Z.ltb_lt in Hsign. rewrite Z.abs_neq by lia. rewrite inject_Z_opp. lra.
  - apply Z.ltb_ge in Hsign. rewrite Z.abs_eq by lia. reflexivity.
Qed.

Lemma round_error_range (q : Q) :
  (- 1048576 <= q)%Q → (q <= 1048576)%Q →
  (q - (1 # 8589934592) <= round q ∧ round q <= q + (1 # 8589934592))%Q.
Proof.
  intros H1 H2. apply round_error, Qabs_Qle_condition. split; lra.
Qed.

Lemma double_gt_true (a b : Q) : gt a b = true → (b < a)%Q.
Proof.
  unfold gt. intros H. apply negb_true_iff in H.
  apply Qnot_le_lt. intros Hle. apply Qle_bool_iff in Hle. congruence.
Qed.

Lemma double_gt_false (a b : Q) : gt a b = false → (a <= b)%Q.
Proof.
  unfold gt. intros H. apply negb_false_iff in H. by apply Qle_bool_iff.
Qed.

Lemma double_max_spec (a b : Q) :
  (a <= max a b ∧ b <= max a b ∧ (max a b = a ∨ max a b = b))%Q.
Proof.
  unfold max. destruct (Qle_bool a b) eqn:H.
  - apply Qle_bool_iff in H. repeat split; try lra. by right.
  - assert (b < a)%Q.
    { apply Qnot_le_lt. intros Hle. apply Qle_bool_iff in Hle. congruence. }
    repeat split; try lra. by left.
Qed.

(** One axis of the positioning effect. *)
Lemma adjust_axis64 (a w v : Q) :
  (Qabs a <= 262144 → Qabs w <= 262144 → Qabs v <= 262144 → w <= v - 16 →
   let r := max 8 (if gt (add a w) v then sub (sub v w) 8 else a) in
   8 <= r ∧ r + w <= v + (1 # 8589934592)
   ∧ (¬ (v - 8 < a + w ∧ a + w <= v + (1 # 8589934592)) →
      r + w <= v - 8 + (1 # 4294967296)))%Q.
Proof.
  intros Ha Hw Hv Hfit r.
  apply Qabs_Qle_condition in Ha as [Ha1 Ha2].
  apply Qabs_Qle_condition in Hw as [Hw1 Hw2].
  apply Qabs_Qle_condition in Hv as [Hv1 Hv2].
  destruct (round_error_range (a + w)) as [Hs1 Hs2]; [lra|lra|].
  destruct (round_error_range (v - w)) as [Ht1 Ht2]; [lra|lra|].
  destruct (round_error_range (round (v - w) - 8)) as [Hu1 Hu2]; [lra|lra|].
  subst r. unfold add, sub.
  destruct (gt (round (a + w)) v) eqn:Hg.
  - apply double_gt_true in Hg.
    destruct (double_max_spec 8 (round (round (v - w) - 8))) as (M1 & M2 & [M3|M3]);
      rewrite M3 in M1, M2 |- *; repeat split; try lra; intros _; lra.
  - apply double_gt_false in Hg.
    destruct (double_max_spec 8 a) as (M1 & M2 & [M3|M3]);
      rewrite M3 in M1, M2 |- *; repeat split; try lra; intros Hn;
      destruct (Qlt_le_dec (v - 8) (a + w)) as [Hc|Hc]; try lra;
      exfalso; apply Hn; split; lra.
Qed.

Lemma double_max_integer (b : Q) (z : Z) :
  (b == inject_Z z)%Q → (max 8 b == inject_Z (Z.max 8 z))%Q.
Proof.
  intros Hb. unfold max. change 8%Q with (inject_Z 8).
  destruct (Qle_bool (inject_Z 8) b) eqn:H.
  - apply Qle_bool_iff in H. rewrite Hb in H. rewrite <- Zle_Qle in H.
    rewrite Z.max_r by lia. exact Hb.
  - assert (b < inject_Z 8)%Q as Hlt.
    { apply Qnot_le_lt. intros Hle. apply Qle_bool_iff in Hle. congruence. }
    rewrite Hb in Hlt. rewrite <- Zlt_Qlt in Hlt.
    rewrite Z.max_l by lia. reflexivity.
Qed.

(** On whole pixels no operation rounds, and the axis computation is the
    integer one. *)
Lemma adjust_axis64_integer (a w v : Z) :
  Z.abs a <= 262144 → Z.abs w <= 262144 → Z.abs v <= 262144 →
  (max 8 (if gt (add (inject_Z a) (inject_Z w)) (inject_Z v)
          then sub (sub (inject_Z v) (inject_Z w)) 8 else inject_Z a)
   == inject_Z (Z.max 8 (if bool_decide (a + w > v)%Z then (v - w - 8)%Z else a)))%Q.
Proof.
  intros Ha Hw Hv.
  assert (add (inject_Z a) (inject_Z w) == inject_Z (a + w))%Q as Hs.
  { apply round_integer; [by rewrite inject_Z_plus | lia]. }
  assert (sub (inject_Z v) (inject_Z w) == inject_Z (v - w))%Q as Ht.
  { apply round_integer; [|lia].
    unfold Z.sub. rewrite inject_Z_plus, inject_Z_opp. reflexivity. }
  assert (sub (sub (inject_Z v) (inject_Z w)) 8 == inject_Z (v - w - 8))%Q as Hu.
  { apply round_integer; [|lia]. rewrite Ht.
    unfold Z.sub. rewrite !inject_Z_plus, !inject_Z_opp. reflexivity. }
  destruct (gt (add (inject_Z a) (inject_Z w)) (inject_Z v)) eqn:Hg.
  - apply double_gt_true in Hg. rewrite Hs in Hg. rewrite <- Zlt_Qlt in Hg.
    rewrite bool_decide_eq_true_2 by lia. by apply double_max_integer.
  - apply double_gt_false in Hg. rewrite Hs in Hg. rewrite <- Zle_Qle in Hg.
    rewrite bool_decide_eq_false_2 by lia. by apply double_max_integer.
Qed.

(** [round] against the binary64 arithmetic of the kernel, on the
    operations of the positioning effect and at the first integer that
    is not a binary64 value. *)
Example round_matches_binary64 :
  (ofFloat (2003 / 10)%float == round (2003 # 10)
   ∧ ofFloat (900 + 2003 / 10)%float == add 900 (round (2003 # 10))
   ∧ ofFloat (1000 - 2003 / 10 - 8)%float
     == sub (sub 1000 (round (2003 # 10))) 8
   ∧ ofFloat (9007199254740992 + 1)%float == add 9007199254740992 1
   ∧ ofFloat (9007199254740992 + 3)%float == add 9007199254740992 3
   ∧ ofFloat (1 / 3)%float == round (1 # 3))%Q.
Proof. repeat split; vm_compute; reflexivity. Qed.

End DoubleFacts.

Section PlacementFacts.
Import ContextMenu Placement.

Example adjustPosition64_shifts_both :
  (let q := adjustPosition64 (mkRect64 200 100) 1000 800 (mkPos64 950 790) in
   x64 q == 792 ∧ y64 q == 692)%Q.
Proof. split; vm_compute; reflexivity. Qed.

(** With the measured width 200.3 the shifted panel ends [2^-44] beyond
    the 8-pixel margin: [1000 - 200.3] and the sum back are both
    rounded. *)
Example adjustPosition64_rounding_excess :
  (x64 (adjustPosition64 (mkRect64 width200_3 100) 1000 800 (mkPos64 900 100))
   + width200_3 == 1000 - 8 + (1 # 17592186044416))%Q.
Proof. vm_compute. reflexivity. Qed.

(** Far beyond screen sizes the 8 and the width are lost to rounding:
    at [2^60] a panel of width 1 is not seen to overflow and ends one
    pixel outside the viewport. *)
Example adjustPosition64_large_magnitude :
  let vw := inject_Z (2 ^ 60) in
  let q := adjustPosition64 (mkRect64 1 1) vw 800 (mkPos64 vw 100) in
  (x64 q == vw ∧ ¬ x64 q + 1 <= vw + slack)%Q.
Proof. split; [vm_compute; reflexivity|]. intros H. vm_compute in H. by apply H. Qed.

(** The kernel's binary64 arithmetic gives the same left coordinate. *)
Example adjustPosition64_matches_binary64 :
  (Double.ofFloat (adjustAxisFloat (2003 / 10) 1000 900)
   == x64 (adjustPosition64 (mkRect64 width200_3 100) 1000 800 (mkPos64 900 100))
   ∧ Double.ofFloat (adjustAxisFloat 200 1000 795)
     == x64 (adjustPosition64 (mkRect64 200 100) 1000 800 (mkPos64 795 100)))%Q.
Proof. split; vm_compute; reflexivity. Qed.

(** On whole pixels [adjustPosition64] is [ContextMenu.adjustPosition]. *)
Lemma adjustPosition64_whole_pixels (rect : Rect) (vw vh : Z) (p : MenuPosition) :
  Z.abs (x p) <= 262144 → Z.abs (y p) <= 262144 →
  Z.abs (width rect) <= 262144 → Z.abs (height rect) <= 262144 →
  Z.abs vw <= 262144 → Z.abs vh <= 262144 →
  let q := adjustPosition rect vw vh p in
  let q64 := adjustPosition64
               (mkRect64 (inject_Z (width rect)) (inject_Z (height rect)))
               (inject_Z vw) (inject_Z vh)
               (mkPos64 (inject_Z (x p)) (inject_Z (y p))) in
  (x64 q64 == inject_Z (x q) ∧ y64 q64 == inject_Z (y q))%Q.
Proof.
  intros Hx Hy Hw Hh Hvw Hvh q q64. subst q q64.
  unfold adjustPosition64, adjustPosition; cbn [x64 y64 width64 height64 x y].
  split; by apply adjust_axis64_integer.
Qed.

(** C2, as stated, fails on the code's numbers in three ways: an anchor
    whose panel ends in the last 8 pixels before the viewport edge is
    not shifted (795 + 200 = 995 > 992); a panel wider than the viewport
    minus both margins cannot fit; and with a fractional measured width
    (200.3) the shifted panel ends past the margin by a rounding error. *)
Lemma adjustPosition64_margin_counterexample :
  ¬ inBox64 8 (1000 - 8) 8 (800 - 8) (mkRect64 200 100)
            (adjustPosition64 (mkRect64 200 100) 1000 800 (mkPos64 795 100))
  ∧ ¬ inBox64 8 (1000 - 8) 8 (800 - 8) (mkRect64 990 100)
              (adjustPosition64 (mkRect64 990 100) 1000 800 (mkPos64 300 100))
  ∧ ¬ inBox64 8 (1000 - 8) 8 (800 - 8) (mkRect64 width200_3 100)
              (adjustPosition64 (mkRect64 width200_3 100) 1000 800
                                (mkPos64 900 100)).
Proof.
  split; [|split]; unfold inBox64; intros (_ & H & _); vm_compute in H; by apply H.
Qed.

(** C2, amended.  For every anchor, measured size and viewport that are
    binary64 numbers below [2^18] in magnitude, with a panel that fits
    between the two 8-pixel margins: the adjusted left and top are at
    least 8, and the right (bottom) edge is at most the viewport width
    (height) plus one rounding error [slack = 2^-33]; it is at most the
    viewport width (height) minus 8 plus two rounding errors unless the
    requested anchor put that edge in the last 8 pixels before the
    viewport edge (up to [slack] beyond it), where the code applies no
    shift. *)
Theorem adjustPosition64_in_viewport (rect : Rect64) (vw vh : Q) (p : Position64) :
  inRange (x64 p) → inRange (y64 p) →
  inRange (width64 rect) → inRange (height64 rect) →
  inRange vw → inRange vh →
  (width64 rect <= vw - 16)%Q → (height64 rect <= vh - 16)%Q →
  let q := adjustPosition64 rect vw vh p in
  inBox64 8 (vw + slack) 8 (vh + slack) rect q
  ∧ (¬ (vw - 8 < x64 p + width64 rect ∧ x64 p + width64 rect <= vw + slack)%Q →
     (x64 q + width64 rect <= vw - 8 + 2 * slack)%Q)
  ∧ (¬ (vh - 8 < y64 p + height64 rect ∧ y64 p + height64 rect <= vh + slack)%Q →
     (y64 q + height64 rect <= vh - 8 + 2 * slack)%Q).
Proof.
  intros Hx Hy Hw Hh Hvw Hvh Hfw Hfh q. subst q.
  destruct (adjust_axis64 _ _ _ Hx Hw Hvw Hfw) as (X1 & X2 & X3).
  destruct (adjust_axis64 _ _ _ Hy Hh Hvh Hfh) as (Y1 & Y2 & Y3).
  unfold adjustPosition64, inBox64, slack; cbn [x64 y64].
  repeat split; try assumption.
  - intros Hn. specialize (X3 Hn). lra.
  - intros Hn. specialize (Y3 Hn). lra.
Qed.

Lemma adjustPosition64_in_viewport_witness :
  let rect := mkRect64 width200_3 100 in
  let p := mkPos64 900 790 in
  let q := adjustPosition64 rect 1000 800 p in
  inBox64 8 (1000 + slack) 8 (800 + slack) rect q
  ∧ (¬ (1000 - 8 < x64 p + width64 rect ∧ x64 p + width64 rect <= 1000 + slack)%Q →
     (x64 q + width64 rect <= 1000 - 8 + 2 * slack)%Q)
  ∧ (¬ (800 - 8 < y64 p + height64 rect ∧ y64 p + height64 rect <= 800 + slack)%Q →
     (y64 q + height64 rect <= 800 - 8 + 2 * slack)%Q).
Proof.
  apply (adjustPosition64_in_viewport (mkRect64 width200_3 100) 1000 800
           (mkPos64 900 790));
    vm_compute; intro; discriminate.
Defined.

End PlacementFacts.

(** ** The task row *)

Section TaskItemFacts.
Import TaskItem.

(** Closed membership questions on control lists are decided by
    evaluation. *)
Ltac by_decision := apply (bool_decide_unpack _); vm_compute; exact I.

(** The first row's menu: moving up is disabled, deleting is offered. *)
Example first_row_menu :
  let st := handleContextMenu Sample.storeView Sample.rowProps (λ k, k) 40 60 initial in
  ContextMenu.isOpen (menuState st) = true
  ∧ ContextMenu.id <$> ContextMenu.items (menuState st)
    = ["duplicate"; "rename"; "divider-1"; "toggle"; "expand"; "divider-2";
       "move-up"; "move-down"; "move-top"; "move-bottom"; "divider-3"; "delete"]%string
  ∧ ContextMenu.disabled <$> ContextMenu.items (menuState st)
    = [None; None; None; None; None; None;
       Some true; Some false; Some true; Some false; None; None].
Proof. by vm_compute. Qed.

(** Choosing "delete" there removes the task and closes the menu. *)
Example delete_entry_click :
  let st := handleContextMenu Sample.storeView Sample.rowProps (λ k, k) 40 60 initial in
  let '(st', out) :=
    menuClick Sample.rowProps
      (entry "delete" "contextMenu.deleteTask" "Trash2" None (Some true)
             (Dispatch (RemoveTaskFromInstance "inst-1" "a"))) st in
  out = [Store (RemoveTaskFromInstance "inst-1" "a")]
  ∧ ContextMenu.isOpen (menuState st') = false.
Proof. by vm_compute. Qed.

Lemma commits_handler (props : Props) (g : Gesture) (st : State) :
  commits g = true → handler props g st = handleSaveEdit props st.
Proof.
  destruct g; simpl; try done.
  intros Hk. unfold handleKeyDown. by rewrite Hk.
Qed.

(** C4. Each of the three committing gestures (Enter in the input, the
    input losing focus, the confirm button) leaves the editing state and
    issues the one command [RenameTask] with the trimmed buffer; for a
    buffer made of white space only that name is the empty string. *)
Theorem rename_commits_trimmed (props : Props) (g : Gesture) (st : State) :
  commits g = true →
  handler props g st
    = (mkSt false (editName st) (menuState st),
       [Store (RenameTask (propInstanceId props) (taskId (propTask props))
                          (Js.trim (editName st)))])
  ∧ (forallb Js.isWhiteSpace (editName st) = true →
     snd (handler props g st)
       = [Store (RenameTask (propInstanceId props) (taskId (propTask props)) [])]).
Proof.
  intros Hg. rewrite (commits_handler props g st Hg). split; [done|].
  intros Hws. unfold handleSaveEdit; simpl. by rewrite (trim_whitespace _ Hws).
Qed.

Lemma rename_commits_trimmed_witness :
  snd (handler Sample.rowProps InputBlur Sample.editingRow)
    = [Store (RenameTask "inst-1" "a" [])]
  ∧ snd (handler Sample.rowProps (InputKeyDown "Enter") Sample.editingRow)
    = [Store (RenameTask "inst-1" "a" [])]
  ∧ snd (handler Sample.rowProps ConfirmMouseDown Sample.editingRow)
    = [Store (RenameTask "inst-1" "a" [])].
Proof.
  split; [|split].
  - apply (proj2 (rename_commits_trimmed Sample.rowProps InputBlur
                    Sample.editingRow eq_refl)). reflexivity.
  - apply (proj2 (rename_commits_trimmed Sample.rowProps (InputKeyDown "Enter")
                    Sample.editingRow eq_refl)). reflexivity.
  - apply (proj2 (rename_commits_trimmed Sample.rowProps ConfirmMouseDown
                    Sample.editingRow eq_refl)). reflexivity.
Defined.

(** C5, as stated, fails: while the row is edited the enable checkbox
    and the drag handle are still rendered, and using them still
    toggles the task and starts a drag. *)
Lemma editing_row_controls_counterexample :
  isEditing Sample.editingRow = true
  ∧ ¬ suppressed Sample.storeView Sample.rowProps Sample.editingRow CheckboxChange
  ∧ ¬ suppressed Sample.storeView Sample.rowProps Sample.editingRow PointerOnHandle
  ∧ snd (activate Sample.storeView Sample.rowProps CheckboxChange Sample.editingRow)
      = [Store (ToggleTaskEnabled "inst-1" "a")]
  ∧ snd (activate Sample.storeView Sample.rowProps PointerOnHandle Sample.editingRow)
      = [DragActivate "a"].
Proof.
  split; [done|]. split; [|split; [|split]]; try by vm_compute.
  all: intros [H _]; vm_compute in H; by inversion H.
Qed.

(** C5, amended.  While the row is edited the expand/collapse button,
    the delete button and the double-click name area are not rendered
    and gestures aimed at them do nothing; the confirm and cancel
    buttons, the enable checkbox and the drag handle are rendered. *)
Theorem editing_hides_expand_and_delete
    (store : StoreView) (props : Props) (st : State) (g : Gesture) :
  isEditing st = true →
  (∀ v, render store props st = Some v →
     (ExpandButton ∉ controls v) ∧ (DeleteButton ∉ controls v)
     ∧ (NameArea ∉ controls v)
     ∧ ConfirmButton ∈ controls v ∧ CancelButton ∈ controls v
     ∧ EnableCheckbox ∈ controls v ∧ DragHandle ∈ controls v)
  ∧ (target g ∈ [ExpandButton; DeleteButton; NameArea] →
     suppressed store props st g).
Proof.
  intros Hed.
  assert (∀ v, render store props st = Some v →
            controls v = [DragHandle; EnableCheckbox; NameInput;
                          ConfirmButton; CancelButton]) as Hv.
  { intros v. unfold render. destruct (taskDef store props); [|done].
    intros [= <-]. simpl. unfold header. rewrite Hed. simpl.
    by rewrite andb_false_r. }
  split.
  - intros v ->%Hv. repeat split; by_decision.
  - intros Hg. unfold suppressed, activate.
    destruct (render store props st) as [v|] eqn:Hr; [|done].
    specialize (Hv v eq_refl).
    assert (target g ∉ controls v) as Hout.
    { rewrite Hv.
      destruct g; simpl in Hg |- *; try by_decision;
        exfalso; revert Hg; by_decision. }
    split; [by rewrite bool_decide_eq_false_2 | by intros ? [= <-]].
Qed.

Lemma editing_hides_expand_and_delete_witness :
  suppressed Sample.storeView Sample.rowProps Sample.editingRow DeleteClick.
Proof.
  apply (proj2 (editing_hides_expand_and_delete Sample.storeView Sample.rowProps
                  Sample.editingRow DeleteClick eq_refl)).
  by_decision.
Defined.

(** The component function itself: when no definition of the project
    interface bears the task's [taskName] (or there is no project
    interface), it returns [null], whatever its state, and no gesture
    has an effect. *)
Lemma unresolved_definition_renders_null
    (store : StoreView) (props : Props) (st : State) :
  (∀ pi d, projectInterface store = Some pi → d ∈ task pi →
           defName d ≠ taskName (propTask props)) →
  taskDef store props = None
  ∧ render store props st = None
  ∧ ∀ g, activate store props g st = (st, []).
Proof.
  intros Hnone.
  assert (taskDef store props = None) as Hdef.
  { unfold taskDef. destruct (projectInterface store) as [pi|] eqn:Hpi; [|done].
    apply find_none. intros d Hd. apply bool_decide_eq_false. by eapply Hnone. }
  assert (render store props st = None) as Hr.
  { unfold render. by rewrite Hdef. }
  split; [done|]. split; [done|]. intros g. unfold activate. by rewrite Hr.
Qed.

(** A row that mounts unresolved, or was unresolved on its previous
    pass, is skipped silently. *)
Lemma unresolved_pass_silent
    (store store' : StoreView) (props props' : Props) (st : State) :
  taskDef store props = None →
  renderPass store props None st = Returned None
  ∧ (taskDef store' props' = None →
     renderPass store props (Some (hooks store' props')) st = Returned None).
Proof.
  intros Hdef. unfold renderPass, render, hooks. rewrite Hdef. split; [done|].
  by intros ->.
Qed.

(** A row whose definition resolved on its previous pass and no longer
    does runs one hook fewer, and React throws. *)
Lemma stale_pass_throws
    (store store' : StoreView) (props props' : Props) (st : State) :
  taskDef store props = None →
  is_Some (taskDef store' props') →
  renderPass store props (Some (hooks store' props')) st = Thrown FewerHooks.
Proof.
  intros Hdef [d Hd]. unfold renderPass, hooks. by rewrite Hdef, Hd.
Qed.

(** Conversely, a row that was skipped and whose definition appears
    runs one hook more, and React throws as well. *)
Lemma resolved_pass_throws
    (store store' : StoreView) (props props' : Props) (st : State) :
  is_Some (taskDef store props) →
  taskDef store' props' = None →
  renderPass store props (Some (hooks store' props')) st = Thrown MoreHooks.
Proof.
  intros [d Hd] Hdef. unfold renderPass, hooks. by rewrite Hdef, Hd.
Qed.

(** C9. The row of a task whose definition is not found returns [null];
    but when the same row had its definition on the previous pass (the
    interface was reloaded without it), the pass ends in React's
    hook-order error instead of a silent skip. *)
Theorem stale_definition_breaks_hook_order :
  taskDef Sample.staleView Sample.rowProps = None
  ∧ render Sample.staleView Sample.rowProps initial = None
  ∧ renderPass Sample.staleView Sample.rowProps None initial = Returned None
  ∧ renderPass Sample.staleView Sample.rowProps
               (Some (hooks Sample.storeView Sample.rowProps)) initial
    = Thrown FewerHooks.
Proof.
  assert (taskDef Sample.staleView Sample.rowProps = None) as Hdef by done.
  split; [done|]. split; [done|]. split; [done|].
  apply (stale_pass_throws _ Sample.storeView _ Sample.rowProps initial Hdef).
  by eexists.
Qed.

End TaskItemFacts.

(** ** The onboarding overlay *)

Section OnboardingFacts.
Import Onboarding.
Local Open Scope nat_scope.

Lemma effect2_watch (w : World) :
  effect2 w =
    if negb (isVisible (comp w)) || onboardingCompleted (store w) then w
    else if connectedAndLoaded (store w) then handleDismiss w else w.
Proof.
  unfold effect2, connectedAndLoaded.
  destruct (negb (isVisible (comp w)) || onboardingCompleted (store w)); [done|].
  destruct (activeInstanceId (store w)) as [id|]; simpl; [|done].
  by destruct (negb (bool_decide (id = ""%string))).
Qed.

(** *** The clock moves only with [tick]. *)

Lemma now_cleanupEffect1 w : now (cleanupEffect1 w) = now w.
Proof. unfold cleanupEffect1. by repeat case_match. Qed.

Lemma now_effect1 w : now (effect1 w) = now w.
Proof. unfold effect1, setTimeout. by repeat case_match. Qed.

Lemma now_effect2 w : now (effect2 w) = now w.
Proof. unfold effect2, handleDismiss. by repeat case_match. Qed.

Lemma now_commit w : now (commit w) = now w.
Proof.
  unfold commit. repeat case_match; simpl;
    rewrite ?now_effect2; simpl; rewrite ?now_effect1, ?now_cleanupEffect1; done.
Qed.

Lemma now_fire l w : now (fire l w) = now w.
Proof.
  revert w. induction l as [|t l IH]; intros w; simpl; [done|].
  case_match; rewrite IH; [|done].
  rewrite now_commit. by destruct (callback t).
Qed.

Lemma now_tick w : now (tick w) = S (now w).
Proof. unfold tick. by rewrite now_fire. Qed.

Lemma now_advance ms w : now (advance ms w) = now w + ms.
Proof.
  revert w. induction ms as [|ms IH]; intros w; simpl; [lia|].
  rewrite IH, now_tick. lia.
Qed.

Lemma now_step e w :
  ambient e = true → now (step e w) = now w + elapsed [e].
Proof.
  destruct e; simpl; try done; intros _;
    rewrite ?now_advance; try case_match; rewrite ?now_commit; simpl; lia.
Qed.

Lemma now_run es w :
  forallb ambient es = true → now (run es w) = now w + elapsed es.
Proof.
  revert w. induction es as [|e es IH]; intros w; simpl; [lia|].
  intros [He Hes]%andb_prop. unfold run in *. rewrite (IH _ Hes).
  rewrite (now_step e w He). simpl. destruct e; simpl; lia.
Qed.

(** *** Once over, always over. *)

Lemma over_commit w : Over w → Over (commit w).
Proof.
  destruct w as [s [m v x r c1 d1 d2] n nx ts]. unfold Over; simpl.
  intros (-> & -> & Hs & -> & Hts). unfold commit; simpl. rewrite Hs; simpl.
  by case_bool_decide.
Qed.

Lemma over_finish id w : Over w → Over (commit (runCallback FinishExit (clearTimeout id w))).
Proof.
  intros (Hm & Hv & Hs & Hd & Hts). apply over_commit.
  destruct w as [s [m v x r c1 d1 d2] n nx ts]; simpl in *; subst.
  unfold Over; simpl. repeat split; try done. by apply Forall_filter_keep.
Qed.

Lemma over_fire l w :
  Forall (λ t, callback t = FinishExit) l → Over w → Over (fire l w).
Proof.
  revert w. induction l as [|t l IH]; intros w Hl Hw; simpl; [done|].
  apply Forall_cons in Hl as [Ht Hl].
  case_bool_decide; apply IH; try done. rewrite Ht. by apply over_finish.
Qed.

Lemma over_tick w : Over w → Over (tick w).
Proof.
  intros (Hm & Hv & Hs & Hd & Hts). unfold tick. apply over_fire.
  - simpl. by apply Forall_filter_keep.
  - by destruct w.
Qed.

Lemma over_advance ms w : Over w → Over (advance ms w).
Proof.
  revert w. induction ms as [|ms IH]; intros w Hw; simpl; [done|].
  by apply IH, over_tick.
Qed.

Lemma over_hidden w : Over w → render w = None.
Proof.
  intros (Hm & Hv & _). unfold render. by rewrite Hv, andb_false_r.
Qed.

Lemma over_step e w : ambient e = true → Over w → Over (step e w).
Proof.
  intros He Hw. destruct e; simpl; try done.
  - by apply over_advance.
  - by rewrite (over_hidden w Hw).
  - apply over_commit. destruct Hw as (? & ? & ? & ? & ?). by destruct w.
  - apply over_commit. destruct Hw as (? & ? & ? & ? & ?). by destruct w.
  - apply over_commit. destruct Hw as (? & ? & ? & ? & ?). by destruct w.
Qed.

Lemma over_run es w : forallb ambient es = true → Over w → Over (run es w).
Proof.
  revert w. induction es as [|e es IH]; intros w; simpl; [done|].
  intros [He Hes]%andb_prop Hw. apply (IH _ Hes). by apply over_step.
Qed.

Lemma mount_completed s :
  onboardingCompleted s = true → Over (mount (page s)).
Proof.
  intros Hs. unfold mount, page, commit, setComp; simpl.
  unfold effect1, cleanupEffect1; simpl. rewrite Hs; simpl.
  by unfold Over.
Qed.

Lemma mount_fresh s :
  onboardingCompleted s = false → PendingAt 500 (mount (page s)).
Proof.
  intros Hs. unfold mount, page, commit, setComp; simpl.
  unfold effect1, cleanupEffect1; simpl. rewrite Hs; simpl.
  unfold currentDeps2; simpl. rewrite Hs.
  apply pending_at; [done|lia|lia].
Qed.

(** *** Waiting for the display timer. *)

(** After a store write, either the watcher's dependencies are what
    they were (hypothesis [Hsame]) or the watcher ran again. *)
Ltac store_write Hs :=
  let Hsame := fresh "Hsame" in
  unfold commit, setStore; simpl; rewrite ?Hs; simpl;
  case_bool_decide as Hsame; simpl;
  [ try rewrite Hsame | ];
  unfold setComp, currentDeps2 in *; simpl in *.

Lemma pending_instant t0 e w :
  instant e = true → PendingAt t0 w → PendingAt t0 (step e w).
Proof.
  intros He Hw. destruct Hw as [s id n nx Hs Hid Hn].
  destruct e; try done; simpl; store_write Hs; by constructor.
Qed.

(** The commit of a visible, not yet completed overlay, spelled out. *)
Lemma commit_visible s x ref d2 n nx ts :
  onboardingCompleted s = false →
  commit (mkWorld s (mkComp true true x ref true (Some false) (Some d2)) n nx ts)
  = if bool_decide (d2 = watched true false s)
    then mkWorld s (mkComp true true x ref true (Some false) (Some d2)) n nx ts
    else if connectedAndLoaded s
    then mkWorld s (mkComp true true true ref true (Some false)
                           (Some (watched true false s)))
                 n (S nx) (ts ++ [mkTimer nx (n + 200) FinishExit])
    else mkWorld s (mkComp true true x ref true (Some false)
                           (Some (watched true false s))) n nx ts.
Proof.
  intros Hs. unfold commit; simpl. rewrite Hs; simpl.
  unfold currentDeps2; simpl. rewrite Hs.
  repeat case_bool_decide; try congruence.
  rewrite effect2_watch; simpl. rewrite Hs.
  by destruct (connectedAndLoaded s).
Qed.

Lemma pending_tick t0 w :
  PendingAt t0 w →
  (S (now w) < t0 ∧ PendingAt t0 (tick w))
  ∨ (S (now w) = t0 ∧ (Shown (tick w) ∨ Leaving (t0 + 200) (tick w))).
Proof.
  intros [s id n nx Hs Hid Hn]. unfold tick; simpl.
  rewrite filter_cons, filter_nil; simpl. case_decide as Hdue.
  - right. split; [lia|]. assert (t0 = S n) as -> by lia. simpl.
    rewrite bool_decide_eq_true_2 by (by left).
    unfold clearTimeout; simpl.
    rewrite filter_cons_False, filter_nil by (by intros H; apply H).
    unfold setIsVisible, setComp; simpl.
    rewrite (commit_visible _ _ _ _ _ _ _ Hs).
    rewrite bool_decide_eq_false_2 by done.
    destruct (connectedAndLoaded s) eqn:Hc.
    + right. constructor; [done|done|].
      apply Forall_singleton; simpl. split; [done|lia].
    + left. by constructor.
  - left. split; [lia|]. simpl. constructor; [done|done|lia].
Qed.

(** *** Shown and idle. *)

Lemma shown_tick w : Shown w → Shown (tick w).
Proof. intros [s ref n nx Hs Hc]. unfold tick; simpl. by constructor. Qed.

(** A store write under a shown overlay: [s'] is the store after it. *)
Lemma shown_store s s' ref n nx :
  onboardingCompleted s' = false →
  connectedAndLoaded s = false →
  (watched true false s = watched true false s' →
   connectedAndLoaded s' = connectedAndLoaded s) →
  let w' := commit (mkWorld s' (mkComp true true false ref true (Some false)
                                       (Some (watched true false s))) n nx []) in
  Shown w' ∨ Leaving (n + 200) w'.
Proof.
  intros Hs' Hc Hsame w'. subst w'. rewrite (commit_visible _ _ _ _ _ _ _ Hs').
  case_bool_decide as Hd.
  - left. rewrite Hd. constructor; [done|]. by rewrite (Hsame Hd).
  - destruct (connectedAndLoaded s') eqn:Hc'.
    + right. constructor; [done|done|].
      apply Forall_singleton; simpl. split; [done|lia].
    + left. by constructor.
Qed.

Lemma shown_instant e w :
  instant e = true → Shown w →
  Shown (step e w) ∨ Leaving (now w + 200) (step e w).
Proof.
  intros He [s ref n nx Hs Hc]. destruct e; try done; simpl.
  - right. unfold handleDismiss, setIsExiting, setTimeout, setComp; simpl.
    rewrite (commit_visible _ _ _ _ _ _ _ Hs).
    rewrite bool_decide_eq_true_2 by done.
    constructor; [done|done|].
    apply Forall_singleton; simpl. split; [done|lia].
  - apply shown_store; [done|done|]. unfold watched; simpl. intros [=]. lia.
  - apply shown_store; [done|done|]. unfold watched; simpl. intros [=]. lia.
  - apply shown_store; [done|done|]. unfold watched; simpl. intros [= <-].
    by destruct s.
Qed.


(** *** Leaving. *)

Lemma leaving_bound lo n (ts : list Timer) :
  ts ≠ [] →
  Forall (λ t, callback t = FinishExit ∧ n < due t ≤ n + 200 ∧ lo ≤ due t) ts →
  lo ≤ n + 200.
Proof.
  destruct ts as [|t ts]; [done|]. intros _ [Ht _]%Forall_cons. lia.
Qed.

(** A store write or a click under a leaving overlay: the queue only
    grows, by exit timers. *)
Lemma leaving_commit lo s' ref d2 n nx ts :
  onboardingCompleted s' = false →
  ts ≠ [] →
  Forall (λ t, callback t = FinishExit ∧ n < due t ≤ n + 200 ∧ lo ≤ due t) ts →
  let w' := commit (mkWorld s' (mkComp true true true ref true (Some false)
                                       (Some d2)) n nx ts) in
  Leaving lo w' ∧ ∃ extra, timers w' = ts ++ extra.
Proof.
  intros Hs' Hne Hts w'. subst w'. rewrite (commit_visible _ _ _ _ _ _ _ Hs').
  pose proof (leaving_bound _ _ _ Hne Hts) as Hlo.
  case_bool_decide as Hd.
  - split; [|exists []; by rewrite app_nil_r]. rewrite Hd. by constructor.
  - destruct (connectedAndLoaded s') eqn:Hc'.
    + split; [|by eexists]. constructor; [done|by destruct ts|].
      apply Forall_app. split; [done|].
      apply Forall_singleton; simpl. split; [done|lia].
    + split; [|exists []; by rewrite app_nil_r]. by constructor.
Qed.

Lemma leaving_instant lo e w :
  instant e = true → Leaving lo w →
  Leaving lo (step e w) ∧ ∃ extra, timers (step e w) = timers w ++ extra.
Proof.
  intros He [s ref n nx ts Hs Hne Hts]. destruct e; try done; simpl.
  - unfold handleDismiss, setIsExiting, setTimeout, setComp; simpl.
    pose proof (leaving_bound _ _ _ Hne Hts) as Hlo.
    rewrite (commit_visible _ _ _ _ _ _ _ Hs).
    rewrite bool_decide_eq_true_2 by done.
    split; [|by eexists]. constructor; [done|by destruct ts|].
    apply Forall_app. split; [done|].
    apply Forall_singleton; simpl. split; [done|lia].
  - by apply leaving_commit.
  - by apply leaving_commit.
  - by apply leaving_commit.
Qed.

Lemma filter_none {A} (P : A → Prop) `{∀ x, Decision (P x)} (l : list A) :
  Forall (λ x, ¬ P x) l → filter P l = [].
Proof.
  induction 1 as [|x l Hx _ IH]; [done|]. by rewrite filter_cons_False.
Qed.

(** A hidden overlay whose store says completed settles into [Over]
    at the next commit, whatever its first effect last saw. *)
Lemma settle_commit w :
  mounted (comp w) = true → isVisible (comp w) = false →
  onboardingCompleted (store w) = true →
  Forall (λ t, callback t = FinishExit) (timers w) →
  Over (commit w).
Proof.
  destruct w as [s [m v x r c1 d1 d2] n nx ts]; simpl.
  intros -> -> Hs Hts.
  assert (∀ id, Forall (λ t, callback t = FinishExit)
                       (filter (λ t, tid t ≠ id) ts)) as Hf
    by (intros; by apply Forall_filter_keep).
  destruct r as [id0|], c1;
    unfold commit, cleanupEffect1, effect1, clearTimeout, setComp; simpl;
    rewrite ?Hs; simpl;
    repeat (case_bool_decide; simpl; rewrite ?Hs; simpl);
    unfold Over; simpl; rewrite ?Hs; simpl; done.
Qed.

(** The first exit timer to fire ends the overlay. *)
Lemma leaving_finish s ref d2 n nx ts id :
  Forall (λ t, callback t = FinishExit) ts →
  Over (commit (runCallback FinishExit (clearTimeout id
          (mkWorld s (mkComp true true true ref true (Some false) (Some d2))
                   n nx ts)))).
Proof.
  intros Hts. apply settle_commit; simpl; try done.
  by apply Forall_filter_keep.
Qed.


Lemma leaving_tick lo w :
  Leaving lo w →
  (Forall (λ t, S (now w) < due t) (timers w) →
     Leaving lo (tick w) ∧ timers (tick w) = timers w)
  ∧ (Exists (λ t, due t ≤ S (now w)) (timers w) →
     Over (tick w) ∧ lo ≤ S (now w)).
Proof.
  intros [s ref n nx ts Hs Hne Hts]. unfold tick; simpl. split.
  - intros Hlater. rewrite filter_none; simpl.
    + split; [|done]. constructor; [done|done|].
      rewrite Forall_forall in Hts, Hlater. apply Forall_forall.
      intros t Ht. destruct (Hts t Ht) as (Hcb & Hd & Hlo).
      specialize (Hlater t Ht). split; [done|lia].
    + eapply Forall_impl; [exact Hlater|]. simpl. lia.
  - intros Hdue.
    assert (Forall (λ t, callback t = FinishExit) ts) as Hexit.
    { eapply Forall_impl; [exact Hts|]. by intros t [? _]. }
    destruct (filter (λ t, due t ≤ S n) ts) as [|t l] eqn:Hf.
    + exfalso. apply Exists_exists in Hdue as (t & Ht & Hd).
      by apply (filter_nil_not_elem_of _ _ t Hf Hd).
    + assert (t ∈ filter (λ t, due t ≤ S n) ts) as Hin by (rewrite Hf; left).
      apply list_elem_of_filter in Hin as [Hd Hin].
      assert (Forall (λ t, callback t = FinishExit) l) as Hl.
      { assert (Forall (λ t, callback t = FinishExit) (t :: l)) as Htl
          by (rewrite <- Hf; by apply Forall_filter_keep).
        by apply Forall_cons in Htl as [_ ?]. }
      rewrite Forall_forall in Hts. destruct (Hts t Hin) as (Hcb & _ & Hlo).
      split; [|lia]. simpl.
      rewrite bool_decide_eq_true_2 by (by apply list_elem_of_fmap_2).
      apply over_fire; [done|]. rewrite Hcb. by apply leaving_finish.
Qed.

(** *** The whole life of an overlay mounted with the flag unset. *)

Lemma phase_instant t0 e w :
  instant e = true → Phase t0 w → Phase t0 (step e w).
Proof.
  intros He Hw.
  assert (ambient e = true) as Ha by (by destruct e).
  pose proof (now_step e w Ha) as Hnow.
  assert (elapsed [e] = 0) as Hz by (by destruct e).
  rewrite Hz, Nat.add_0_r in Hnow. unfold Phase. rewrite Hnow.
  destruct Hw as [Hp | [[Hsh Ht] | [[Hl Ht] | [Ho Ht]]]].
  - left. by apply pending_instant.
  - destruct (shown_instant e w He Hsh) as [Hsh' | Hl'].
    + right; left. done.
    + right; right; left. split; [|done].
      destruct Hl' as [s ref n nx ts Hs Hne Hts]. constructor; [done|done|].
      eapply Forall_impl; [exact Hts|]. simpl.
      intros t (Hcb & Hd & Hlo). split; [done|lia].
  - right; right; left. split; [|done]. by apply leaving_instant.
  - right; right; right. split; [|done]. by apply over_step.
Qed.

Lemma phase_tick t0 w : Phase t0 w → Phase t0 (tick w).
Proof.
  intros Hw. unfold Phase. rewrite now_tick.
  destruct Hw as [Hp | [[Hsh Ht] | [[Hl Ht] | [Ho Ht]]]].
  - destruct (pending_tick t0 w Hp) as [[Hlt Hp'] | [Heq [Hsh | Hl]]].
    + by left.
    + right; left. split; [done|lia].
    + right; right; left. split; [done|lia].
  - right; left. split; [by apply shown_tick|lia].
  - destruct (leaving_tick _ w Hl) as [Hstay Hgo].
    destruct (Forall_Exists_dec (λ t, S (now w) < due t) (λ t, due t ≤ S (now w))
                (λ t, match lt_dec (S (now w)) (due t) with
                      | left H => left H
                      | right H => right (proj1 (Nat.nlt_ge _ _) H)
                      end) (timers w)) as [Hlater | Hdue].
    + right; right; left. split; [by apply Hstay|lia].
    + right; right; right. by apply Hgo.
  - right; right; right. split; [by apply over_tick|lia].
Qed.

Lemma phase_advance t0 ms w : Phase t0 w → Phase t0 (advance ms w).
Proof.
  revert w. induction ms as [|ms IH]; intros w Hw; simpl; [done|].
  by apply IH, phase_tick.
Qed.

Lemma phase_step t0 e w : ambient e = true → Phase t0 w → Phase t0 (step e w).
Proof.
  intros He Hw. destruct e; try done;
    try (by apply phase_instant). by apply phase_advance.
Qed.

Lemma phase_run t0 es w :
  forallb ambient es = true → Phase t0 w → Phase t0 (run es w).
Proof.
  revert w. induction es as [|e es IH]; intros w; simpl; [done|].
  intros [He Hes]%andb_prop Hw. apply (IH _ Hes). by apply phase_step.
Qed.

(** *** What each phase paints. *)

Lemma pending_hidden t0 w : PendingAt t0 w → render w = None.
Proof. by intros []. Qed.

Lemma shown_visible w : Shown w → is_Some (render w).
Proof. intros []. by eexists. Qed.

Lemma leaving_visible lo w :
  Leaving lo w → is_Some (render w) ∧ isExiting (comp w) = true.
Proof. intros []. split; [by eexists|done]. Qed.

Lemma phase_visible t0 w :
  Phase t0 w → is_Some (render w) →
  (Shown w ∧ t0 ≤ now w) ∨ (Leaving (t0 + 200) w ∧ t0 ≤ now w).
Proof.
  intros [Hp | [Hsh | [Hl | [Ho _]]]] [v Hv]; [|by left|by right|].
  - by rewrite (pending_hidden _ _ Hp) in Hv.
  - by rewrite (over_hidden _ Ho) in Hv.
Qed.

(** *** Leaving with a deadline. *)

Lemma later_or_due n (ts : list Timer) :
  Forall (λ t, n < due t) ts ∨ Exists (λ t, due t ≤ n) ts.
Proof.
  induction ts as [|t ts [IH | IH]].
  - left. constructor.
  - destruct (lt_dec n (due t)) as [Hlt | Hge].
    + left. by constructor.
    + right. apply Exists_cons_hd. lia.
  - right. by apply Exists_cons_tl.
Qed.

Lemma leaving_exiting lo w : Leaving lo w → ExitingBy (now w + 200) w.
Proof.
  intros Hw. left. exists lo. split; [done|].
  destruct Hw as [s ref n nx ts Hs Hne Hts]; simpl.
  destruct ts as [|t ts]; [done|]. apply Forall_cons in Hts as [Ht _].
  apply Exists_cons_hd. lia.
Qed.

Lemma exiting_instant T e w :
  instant e = true → ExitingBy T w → ExitingBy T (step e w).
Proof.
  intros He [(lo & Hl & Hdue) | Ho].
  - left. exists lo.
    destruct (leaving_instant lo e w He Hl) as [Hl' [extra Hts]].
    split; [done|]. rewrite Hts. apply Exists_app. by left.
  - right. apply over_step; [by destruct e|done].
Qed.

Lemma exiting_tick T w : ExitingBy T w → ExitingBy T (tick w).
Proof.
  intros [(lo & Hl & Hdue) | Ho].
  - destruct (leaving_tick lo w Hl) as [Hstay Hgo].
    destruct (later_or_due (S (now w)) (timers w)) as [Hlater | Hnow].
    + left. exists lo. destruct (Hstay Hlater) as [Hl' Hts].
      split; [done|]. by rewrite Hts.
    + right. by apply Hgo.
  - right. by apply over_tick.
Qed.

Lemma exiting_advance T ms w : ExitingBy T w → ExitingBy T (advance ms w).
Proof.
  revert w. induction ms as [|ms IH]; intros w Hw; simpl; [done|].
  by apply IH, exiting_tick.
Qed.

Lemma exiting_run T es w :
  forallb ambient es = true → ExitingBy T w → ExitingBy T (run es w).
Proof.
  revert w. induction es as [|e es IH]; intros w; simpl; [done|].
  intros [He Hes]%andb_prop Hw. apply (IH _ Hes).
  destruct e; try done; try (by apply exiting_instant).
  by apply exiting_advance.
Qed.

Lemma exiting_deadline T w : ExitingBy T w → T ≤ now w → Over w.
Proof.
  intros [(lo & Hl & Hdue) | Ho] HT; [|done]. exfalso.
  destruct Hl as [s ref n nx ts Hs Hne Hts]; simpl in *.
  apply Exists_exists in Hdue as (t & Ht & Hd).
  rewrite Forall_forall in Hts. destruct (Hts t Ht) as (_ & ? & _). lia.
Qed.

(** Whatever follows, 200ms after an overlay is seen leaving it is
    gone and the flag is stored. *)
Lemma leaving_dismissed lo w es :
  Leaving lo w → forallb ambient es = true → 200 ≤ elapsed es →
  render (run es w) = None ∧ onboardingCompleted (store (run es w)) = true.
Proof.
  intros Hl Hes Hlong.
  assert (Over (run es w)) as Ho.
  { apply (exiting_deadline (now w + 200)).
    - by apply exiting_run, (leaving_exiting lo).
    - rewrite (now_run es w Hes). lia. }
  split; [by apply over_hidden|]. by destruct Ho as (_ & _ & ? & _).
Qed.

Lemma store_commit w : store (commit w) = store w.
Proof.
  unfold commit, effect1, cleanupEffect1, effect2, handleDismiss, setTimeout.
  by repeat case_match.
Qed.

Lemma pending_time t0 w : PendingAt t0 w → now w < t0.
Proof. by intros []. Qed.

Lemma shown_idle w : Shown w → connectedAndLoaded (store w) = false.
Proof. by intros []. Qed.

Lemma shown_click w : Shown w → Leaving (now w + 200) (step DismissClick w).
Proof.
  intros [s ref n nx Hs Hc]. simpl.
  unfold handleDismiss, setIsExiting, setTimeout, setComp; simpl.
  rewrite (commit_visible _ _ _ _ _ _ _ Hs).
  rewrite bool_decide_eq_true_2 by done.
  constructor; [done|done|].
  apply Forall_singleton; simpl. split; [done|lia].
Qed.

Lemma leaving_dismissing lo w : Leaving lo w → Dismissing w.
Proof.
  intros Hl. destruct (leaving_visible lo w Hl) as [Hv Hx].
  split; [done|]. split; [done|]. intros es Hes Hlong.
  by apply (leaving_dismissed lo).
Qed.

Lemma visible_instant t0 e w :
  instant e = true → Phase t0 w → is_Some (render w) →
  (connectedAndLoaded (store (step e w)) = true ∨ e = DismissClick) →
  Dismissing (step e w).
Proof.
  intros He Hw Hv Hwhy.
  destruct (phase_visible t0 w Hw Hv) as [[Hsh _] | [Hl _]].
  - destruct Hwhy as [Hc | ->].
    + destruct (shown_instant e w He Hsh) as [Hsh' | Hl'].
      * by rewrite (shown_idle _ Hsh') in Hc.
      * by apply (leaving_dismissing (now w + 200)).
    + by apply (leaving_dismissing (now w + 200)), shown_click.
  - apply (leaving_dismissing (t0 + 200)). by apply leaving_instant.
Qed.

Lemma connected_store id w :
  activeInstanceId (store w) = Some id → id ≠ ""%string →
  instanceResourceLoaded (store w) !! id = Some true →
  connectedAndLoaded (store (step (ConnectionStatus id "Connected") w)) = true.
Proof.
  intros Hid Hne Hld. simpl. rewrite store_commit. simpl.
  unfold connectedAndLoaded; simpl. rewrite Hid; simpl.
  rewrite lookup_insert_eq, Hld; simpl. by case_bool_decide.
Qed.

(** C6. Mounted with the flag unset, the overlay paints nothing for
    the first 500ms and is painted from then until at least 700ms;
    when, while it is painted, the active instance's status becomes
    [Connected] with its resources loaded, and in any painted state
    where both hold, the overlay is leaving exactly as after a manual
    dismissal: 200ms later it paints nothing and the completed flag is
    stored as true. *)
Theorem onboarding_shows_then_dismisses (s : Store) (es : list Event) :
  onboardingCompleted s = false →
  forallb ambient es = true →
  let w := run (Mount :: es) (page s) in
  (elapsed es < 500 → render w = None)
  ∧ (500 ≤ elapsed es < 700 → is_Some (render w))
  ∧ (is_Some (render w) →
     ∀ id, activeInstanceId (store w) = Some id → id ≠ ""%string →
       instanceResourceLoaded (store w) !! id = Some true →
       Dismissing (step (ConnectionStatus id "Connected") w))
  ∧ (is_Some (render w) → connectedAndLoaded (store w) = true → Dismissing w)
  ∧ (is_Some (render w) → Dismissing (step DismissClick w)).
Proof.
  intros Hs Hes w.
  assert (Phase 500 w) as Hw.
  { change (Phase 500 (run es (mount (page s)))).
    apply phase_run; [done|]. left. by apply mount_fresh. }
  assert (now w = elapsed es) as Hnow.
  { change (now (run es (mount (page s))) = elapsed es).
    rewrite (now_run es _ Hes). unfold mount. by rewrite now_commit. }
  split; [|split; [|split; [|split]]].
  - intros Hearly.
    destruct Hw as [Hp | [[_ Ht] | [[_ Ht] | [_ Ht]]]]; try lia.
    by apply (pending_hidden 500).
  - intros Hmid.
    destruct Hw as [Hp | [[Hsh _] | [[Hl _] | [_ Ht]]]]; try lia.
    + apply pending_time in Hp. lia.
    + by apply shown_visible.
    + by apply (leaving_visible _ _ Hl).
  - intros Hv id Hid Hne Hld.
    apply (visible_instant 500); try done. left. by apply connected_store.
  - intros Hv Hc.
    destruct (phase_visible 500 w Hw Hv) as [[Hsh _] | [Hl _]].
    + by rewrite (shown_idle _ Hsh) in Hc.
    + by apply (leaving_dismissing (500 + 200)).
  - intros Hv. apply (visible_instant 500); try done. by right.
Qed.

Lemma onboarding_shows_then_dismisses_witness :
  is_Some (render (run [Mount; Advance 500] (page Sample.loadedRun)))
  ∧ Dismissing (step (ConnectionStatus "inst-1" "Connected")
                     (run [Mount; Advance 500] (page Sample.loadedRun))).
Proof.
  pose proof (onboarding_shows_then_dismisses Sample.loadedRun [Advance 500]
                eq_refl eq_refl) as (_ & Hshown & Hauto & _).
  assert (is_Some (render (run [Mount; Advance 500] (page Sample.loadedRun))))
    as Hv by (apply Hshown; simpl; lia).
  split; [exact Hv|].
  apply (Hauto Hv "inst-1"%string); [reflexivity|discriminate|reflexivity].
Defined.

(** C7. Mounted with the flag already stored, the overlay paints
    nothing after any sequence of clock, pointer and store events, the
    store events changing connection status, loaded resources and
    active instance at will. *)
Theorem completed_never_visible (s : Store) (es : list Event) :
  onboardingCompleted s = true →
  forallb ambient es = true →
  render (run (Mount :: es) (page s)) = None
  ∧ isVisible (comp (run (Mount :: es) (page s))) = false.
Proof.
  intros Hs Hes.
  assert (Over (run (Mount :: es) (page s))) as Ho.
  { change (Over (run es (mount (page s)))).
    apply over_run; [done|]. by apply mount_completed. }
  split; [by apply over_hidden|]. by destruct Ho as (_ & ? & _).
Qed.

Lemma completed_never_visible_witness :
  render (run [Mount; Advance 600; ConnectionStatus "inst-1" "Connected";
               ResourceLoaded "inst-1" true; Advance 300]
              (page Sample.laterRun)) = None
  ∧ isVisible (comp (run [Mount; Advance 600;
                          ConnectionStatus "inst-1" "Connected";
                          ResourceLoaded "inst-1" true; Advance 300]
                         (page Sample.laterRun))) = false.
Proof.
  apply (completed_never_visible Sample.laterRun
           [Advance 600; ConnectionStatus "inst-1" "Connected";
            ResourceLoaded "inst-1" true; Advance 300]); reflexivity.
Defined.

(** *** Timers and unmounting. *)

(** The display timer is released by the first effect's cleanup. *)
Lemma display_timer_cancelled (s : Store) (es : list Event) :
  onboardingCompleted s = false →
  forallb ambient es = true →
  elapsed es < 500 →
  timers (unmount (run (Mount :: es) (page s))) = [].
Proof.
  intros Hs Hes Hearly.
  assert (Phase 500 (run (Mount :: es) (page s))) as Hw.
  { change (Phase 500 (run es (mount (page s)))).
    apply phase_run; [done|]. left. by apply mount_fresh. }
  assert (now (run (Mount :: es) (page s)) = elapsed es) as Hnow.
  { change (now (run es (mount (page s))) = elapsed es).
    rewrite (now_run es _ Hes). unfold mount. by rewrite now_commit. }
  destruct Hw as [Hp | [[_ Ht] | [[_ Ht] | [_ Ht]]]]; try lia.
  destruct Hp as [s' id n nx Hs' Hid Hn].
  unfold unmount, cleanupEffect1, clearTimeout; simpl.
  rewrite bool_decide_eq_false_2 by done. simpl.
  by rewrite filter_cons_False, filter_nil by (by intros H; apply H).
Qed.

(** C8. The display timer is cancelled by unmounting, but the exit
    timer is not: unmounting 0ms after a dismissal leaves the exit
    callback queued, and when it fires 200ms later the torn-down
    component still writes the completed flag to the store. *)
Theorem exit_timer_outlives_unmount :
  timers (run [Mount; Advance 300; Unmount] (page Sample.firstRun)) = []
  ∧ let w := run [Mount; Advance 500; DismissClick; Unmount]
                 (page Sample.firstRun) in
    mounted (comp w) = false
    ∧ timers w = [mkTimer 2 700 FinishExit]
    ∧ onboardingCompleted (store w) = false
    ∧ onboardingCompleted (store (step (Advance 200) w)) = true.
Proof. by vm_compute. Qed.

End OnboardingFacts.

(** ** More on the menu primitive *)

Section MenuMore.
Import ContextMenu.




(** X3. A click on a rendered entry closes the menu exactly when the
    entry is no divider, is not disabled and has no [children]; an
    action only ever runs together with that close, and it is the
    entry's own [onClick]. *)
Theorem click_closes_iff {A} (item : MenuItem A) :
  (Close ∈ click (MenuItemComponent item) ↔
     Js.truthy (divider item) = false
     ∧ Js.truthy (disabled item) = false
     ∧ children item = None)
  ∧ (∀ a, Invoke a ∈ click (MenuItemComponent item) →
       onClick item = Some a
       ∧ click (MenuItemComponent item) = [Invoke a; Close]).
Proof.
  unfold MenuItemComponent, handleClick, click.
  destruct (Js.truthy (divider item)), (Js.truthy (disabled item)),
    (children item) as [cs|], (onClick item) as [f|]; simpl;
    (split; [split; [intros H | intros (? & ? & ?)] | intros a H]);
    try discriminate; try (by apply elem_of_nil in H);
    try (by repeat constructor).
  - apply elem_of_cons in H as [[= <-] | H]; [done|].
    apply elem_of_cons in H as [? | H]; [done|]. by apply elem_of_nil in H.
  - apply elem_of_cons in H as [? | H]; [done|]. by apply elem_of_nil in H.
Qed.

End MenuMore.

Section ListenerFacts.
Import MenuListeners.

Lemma run_app es1 es2 p : run (es1 ++ es2) p = run es2 (run es1 p).
Proof. unfold run. by rewrite foldl_app. Qed.

Lemma input_detached p es :
  mousedownListener p = false → keydownListener p = false →
  forallb input es = true → run es p = p.
Proof.
  intros Hm Hk. induction es as [|e es IH]; simpl; [done|].
  intros [He Hes]%andb_prop. destruct e; try done; simpl.
  - rewrite Hm. by apply IH.
  - rewrite Hk. by apply IH.
Qed.

(** X4. Between the mount of the menu and the run of its zero-delay
    timer no pointer or keyboard input reaches [onClose], whatever the
    input is: the click that opened the menu cannot dismiss it. *)
Theorem input_before_registration_ignored (p : Page) (es : list PageEvent) :
  mousedownListener p = false → keydownListener p = false →
  forallb input es = true →
  closeCalls (run (MountMenu :: es) p) = closeCalls p
  ∧ timerPending (run (MountMenu :: es) p) = true.
Proof.
  intros Hm Hk Hes.
  change (run (MountMenu :: es) p) with (run es (step MountMenu p)).
  rewrite input_detached; by destruct p.
Qed.

Lemma input_before_registration_ignored_witness :
  closeCalls (run [MountMenu; MouseDown false; KeyDown "Escape"] blank) = 0%nat
  ∧ timerPending (run [MountMenu; MouseDown false; KeyDown "Escape"] blank) = true.
Proof.
  apply (input_before_registration_ignored blank
           [MouseDown false; KeyDown "Escape"]); reflexivity.
Defined.

(** X5. Once the listeners are registered, [onClose] is called once for
    every pointer press outside the menu and every Escape key, and for
    nothing else. *)
Theorem registered_input_dismisses (es : list PageEvent) :
  forallb input es = true →
  closeCalls (run ([MountMenu; RunTimers] ++ es) blank)
  = length (List.filter dismisses es).
Proof.
  intros Hes. rewrite run_app. simpl run at 2.
  change (closeCalls (run es (mkPage true false true true 0))
          = (0 + length (List.filter dismisses es))%nat).
  generalize 0%nat as n. induction es as [|e es IH]; intros n; simpl; [lia|].
  simpl in Hes. apply andb_prop in Hes as [He Hes].
  destruct e as [| | |ins|key|]; try done; simpl.
  - destruct ins; simpl; unfold handleClickOutside; simpl.
    + by apply IH.
    + rewrite (IH Hes (S n)). lia.
  - unfold handleEscape; simpl. case_bool_decide; simpl.
    + rewrite (IH Hes (S n)). lia.
    + by apply IH.
Qed.

Lemma registered_input_dismisses_witness :
  closeCalls (run ([MountMenu; RunTimers]
                   ++ [MouseDown true; KeyDown "a"; MouseDown false]) blank)
  = 1%nat.
Proof.
  apply (registered_input_dismisses
           [MouseDown true; KeyDown "a"; MouseDown false]). reflexivity.
Defined.

Lemma unmounted_stays p e :
  afterlife e = true →
  menuMounted p = false → timerPending p = false →
  mousedownListener p = false → keydownListener p = false →
  step e p = p.
Proof.
  intros He Hmo Ht Hm Hk. destruct p as [mo ti md kd n]; simpl in *; subst.
  by destruct e.
Qed.

(** X6. Unmounting the menu, in whatever state, clears the pending
    timer and both listeners; afterwards no timer run and no input ever
    calls [onClose], also when the menu is unmounted before the
    deferred registration has run. *)
Theorem unmount_releases_listeners (p : Page) (es : list PageEvent) :
  forallb afterlife es = true →
  run es (step UnmountMenu p) = mkPage false false false false (closeCalls p).
Proof.
  intros Hes. simpl. generalize (closeCalls p) as n. clear p.
  induction es as [|e es IH]; intros n; simpl; [done|].
  simpl in Hes. apply andb_prop in Hes as [He Hes].
  rewrite (unmounted_stays _ e He); try done. by apply IH.
Qed.

Lemma unmount_releases_listeners_witness :
  run [RunTimers; MouseDown false; KeyDown "Escape"]
      (step UnmountMenu (step MountMenu blank))
  = mkPage false false false false 0.
Proof.
  apply (unmount_releases_listeners (step MountMenu blank)
           [RunTimers; MouseDown false; KeyDown "Escape"]). reflexivity.
Defined.

End ListenerFacts.

Section HookCallFacts.
Import ContextMenu MenuHook.

Lemma calls_snoc {A} (cs : list (Call A)) c s :
  calls (cs ++ [c]) s = call c (calls cs s).
Proof. unfold calls. by rewrite foldl_app. Qed.

Lemma lastShown_snoc {A} (cs : list (Call A)) c d :
  lastShown (cs ++ [c]) d
  = match c with
    | ShowCall cx cy its => (mkPos cx cy, its)
    | HideCall => lastShown cs d
    end.
Proof.
  revert d. induction cs as [|c' cs IH]; intros d; simpl.
  - by destruct c.
  - destruct c'; by rewrite IH.
Qed.

(** X7. After any sequence of [show] and [hide] calls the hook's state
    holds the position and items of the most recent [show] (its initial
    values if there was none), and the menu is open exactly when the
    last call was a [show]. *)
Theorem hook_state_after_calls {A} (cs : list (Call A)) (s : ContextMenuState A) :
  (position (calls cs s), items (calls cs s))
  = lastShown cs (position s, items s)
  ∧ isOpen (calls cs s)
    = match last cs with Some c => isShow c | None => isOpen s end.
Proof.
  induction cs as [|c cs IH] using rev_ind; [done|].
  rewrite calls_snoc, lastShown_snoc, last_snoc.
  destruct IH as [IHp _]. by destruct c.
Qed.

End HookCallFacts.

(** ** More on the task row *)

Section RowMore.
Import TaskItem.

Ltac decide_now := apply (bool_decide_unpack _); vm_compute; exact I.

Lemma trimStart_head (s : Js.text) c r :
  Js.trimStart s = c :: r → Js.isWhiteSpace c = false.
Proof.
  induction s as [|a s IH]; simpl; [done|].
  destruct (Js.isWhiteSpace a) eqn:Ha; [done|]. by intros [= <- _].
Qed.

Lemma trimStart_suffix (s : Js.text) : ∃ k, s = k ++ Js.trimStart s.
Proof.
  induction s as [|a s [k IH]]; simpl; [by exists []|].
  destruct (Js.isWhiteSpace a).
  - exists (a :: k). simpl. by rewrite <- IH.
  - by exists [].
Qed.

Lemma trimEnd_prefix (s : Js.text) : ∃ k, s = Js.trimEnd s ++ k.
Proof.
  destruct (trimStart_suffix (rev s)) as [k Hk]. exists (rev k).
  unfold Js.trimEnd. rewrite <- rev_app_distr, <- Hk. by rewrite rev_involutive.
Qed.

Lemma trimStart_same (s : Js.text) :
  (∀ c r, s = c :: r → Js.isWhiteSpace c = false) → Js.trimStart s = s.
Proof.
  destruct s as [|c r]; [done|]. intros H. simpl. by rewrite (H c r eq_refl).
Qed.

Lemma trim_head (s : Js.text) c r :
  Js.trim s = c :: r → Js.isWhiteSpace c = false.
Proof.
  unfold Js.trim. intros H.
  destruct (trimEnd_prefix (Js.trimStart s)) as [k Hk]. rewrite H in Hk.
  by apply (trimStart_head s c (r ++ k)).
Qed.

Lemma trim_last (s : Js.text) c :
  last (Js.trim s) = Some c → Js.isWhiteSpace c = false.
Proof.
  unfold Js.trim, Js.trimEnd. intros H.
  destruct (Js.trimStart (rev (Js.trimStart s))) as [|a r] eqn:Hr; [done|].
  simpl in H. rewrite last_snoc in H. injection H as <-.
  by apply (trimStart_head _ _ _ Hr).
Qed.

Lemma trim_fixed (s : Js.text) : Js.trim (Js.trim s) = Js.trim s.
Proof.
  assert (Js.trimStart (Js.trim s) = Js.trim s) as Hs.
  { apply trimStart_same. intros c r. apply trim_head. }
  unfold Js.trim at 1. rewrite Hs. unfold Js.trimEnd.
  rewrite trimStart_same; [by rewrite rev_involutive|].
  intros c r Hc. apply (trim_last s).
  rewrite <- (rev_involutive (Js.trim s)), Hc. simpl. by rewrite last_snoc.
Qed.

(** X8. The name a commit sends to the store is the edit buffer without
    its leading and trailing white space: it neither starts nor ends
    with a white-space character, trimming it again changes nothing,
    and it is empty exactly when the buffer holds white space only. *)
Theorem committed_name_is_trimmed (props : Props) (st : State) :
  ∃ name,
    snd (handleSaveEdit props st)
      = [Store (RenameTask (propInstanceId props) (taskId (propTask props)) name)]
    ∧ (∀ c, head name = Some c → Js.isWhiteSpace c = false)
    ∧ (∀ c, last name = Some c → Js.isWhiteSpace c = false)
    ∧ Js.trim name = name
    ∧ (name = [] ↔ forallb Js.isWhiteSpace (editName st) = true).
Proof.
  exists (Js.trim (editName st)). split; [done|]. split; [|split; [|split; [|split]]].
  - intros c Hc. destruct (Js.trim (editName st)) as [|a r] eqn:Ht; [done|].
    injection Hc as ->. by apply (trim_head _ _ _ Ht).
  - apply trim_last.
  - apply trim_fixed.
  - apply trim_empty.
  - apply trim_whitespace.
Qed.

Lemma header_editing def st :
  isEditing st = true →
  header def st = [DragHandle; EnableCheckbox; NameInput; ConfirmButton; CancelButton].
Proof. intros H. unfold header. rewrite H. simpl. by rewrite andb_false_r. Qed.

Lemma header_viewing def st :
  isEditing st = false →
  header def st = [DragHandle; EnableCheckbox; NameArea]
                  ++ (if hasOptions def then [ExpandButton] else [])
                  ++ [DeleteButton].
Proof. intros H. unfold header. rewrite H. simpl. by rewrite andb_true_r. Qed.

Lemma activate_resolved store props def g st :
  taskDef store props = Some def →
  activate store props g st
  = if bool_decide (target g ∈ header def st) then handler props g st else (st, []).
Proof. intros Hd. unfold activate, render. by rewrite Hd. Qed.

(** X9. The rename cycle of a row whose definition resolves: a double
    click on the name opens the editor on the custom name (empty if
    there is none); after any text is typed, each committing gesture
    sends one [RenameTask] with that text trimmed and returns the row to
    viewing. *)
Theorem rename_cycle (store : StoreView) (props : Props) (def : TaskDef)
    (st : State) (typed : Js.text) (g : Gesture) :
  taskDef store props = Some def →
  isEditing st = false →
  commits g = true →
  let opened := fst (activate store props NameDoubleClick st) in
  let edited := fst (activate store props (InputChange typed) opened) in
  opened = mkSt true (Js.orText (customName (propTask props)) []) (menuState st)
  ∧ snd (activate store props NameDoubleClick st) = []
  ∧ edited = mkSt true typed (menuState st)
  ∧ activate store props g edited
    = (mkSt false typed (menuState st),
       [Store (RenameTask (propInstanceId props) (taskId (propTask props))
                          (Js.trim typed))]).
Proof.
  intros Hd Hview Hg opened edited.
  assert (activate store props NameDoubleClick st
          = (mkSt true (Js.orText (customName (propTask props)) []) (menuState st), []))
    as Hopen.
  { rewrite (activate_resolved _ _ def) by done.
    rewrite (header_viewing def st Hview).
    rewrite bool_decide_eq_true_2; [done|]. simpl. rewrite !elem_of_cons. auto. }
  assert (opened = mkSt true (Js.orText (customName (propTask props)) []) (menuState st))
    as Hopened by (subst opened; by rewrite Hopen).
  assert (edited = mkSt true typed (menuState st)) as Hedited.
  { subst edited. rewrite Hopened, (activate_resolved _ _ def) by done.
    rewrite header_editing by done.
    by rewrite bool_decide_eq_true_2 by decide_now. }
  split; [done|]. split; [by rewrite Hopen|]. split; [done|].
  rewrite Hedited, (activate_resolved _ _ def) by done.
  rewrite header_editing by done.
  rewrite bool_decide_eq_true_2 by (destruct g; try done; decide_now).
  by rewrite (commits_handler props g _ Hg).
Qed.

Lemma rename_cycle_witness :
  activate Sample.storeView Sample.rowProps InputBlur
    (fst (activate Sample.storeView Sample.rowProps (InputChange [32; 72; 105]%N)
            (fst (activate Sample.storeView Sample.rowProps NameDoubleClick initial))))
  = (mkSt false [32; 72; 105]%N ContextMenu.initialState,
     [Store (RenameTask "inst-1" "a" (Js.trim [32; 72; 105]%N))]).
Proof.
  apply (rename_cycle Sample.storeView Sample.rowProps
           (mkTaskDef "StartUp" [83; 116; 97; 114; 116]%N (Some ["mode"%string]))
           initial [32; 72; 105]%N InputBlur); reflexivity.
Defined.

(** X10. While a row is edited, Escape and the cancel button leave the
    editor, empty the buffer and send nothing to the store; a key other
    than Enter and Escape changes nothing. *)
Theorem cancel_discards_buffer (store : StoreView) (props : Props)
    (def : TaskDef) (st : State) :
  taskDef store props = Some def →
  isEditing st = true →
  activate store props (InputKeyDown "Escape") st = (mkSt false [] (menuState st), [])
  ∧ activate store props CancelMouseDown st = (mkSt false [] (menuState st), [])
  ∧ ∀ key, key ≠ "Enter"%string → key ≠ "Escape"%string →
      activate store props (InputKeyDown key) st = (st, []).
Proof.
  intros Hd Hed.
  assert (∀ g, target g ∈ [NameInput; CancelButton] →
            activate store props g st = handler props g st) as Hact.
  { intros g Hg. rewrite (activate_resolved _ _ def) by done.
    rewrite header_editing by done.
    rewrite bool_decide_eq_true_2; [done|].
    apply elem_of_cons in Hg as [-> | Hg]; [decide_now|].
    apply list_elem_of_singleton in Hg as ->. decide_now. }
  split; [|split].
  - rewrite Hact by (simpl; decide_now). done.
  - rewrite Hact by (simpl; decide_now). done.
  - intros key Hne1 Hne2. rewrite Hact by (simpl; decide_now). simpl.
    unfold handleKeyDown. by rewrite !bool_decide_eq_false_2.
Qed.

Lemma cancel_discards_buffer_witness :
  activate Sample.storeView Sample.rowProps (InputKeyDown "Escape") Sample2.typedRow
  = (mkSt false [] ContextMenu.initialState, []).
Proof.
  apply (cancel_discards_buffer Sample.storeView Sample.rowProps
           (mkTaskDef "StartUp" [83; 116; 97; 114; 116]%N (Some ["mode"%string]))
           Sample2.typedRow); reflexivity.
Defined.

End RowMore.

Section RowMenuFacts.
Import TaskItem.

Ltac split_members H :=
  repeat (apply elem_of_cons in H as [-> | H]);
  try (by apply elem_of_nil in H).

(** X11. In the menu opened on the row at index [i] of a list with
    distinct ids, "move up" and "move to top" are disabled exactly for
    the first row, and "move down" and "move to bottom" exactly for the
    last one; all four entries are always offered. *)
Theorem row_menu_move_entries (store : StoreView) (props : Props)
    (t : string → string) (cx cy : Z) (st : State) (inst : Instance) (i : nat) :
  activeInstance store = Some inst →
  NoDup (taskId <$> selectedTasks inst) →
  selectedTasks inst !! i = Some (propTask props) →
  let its := ContextMenu.items
               (menuState (handleContextMenu store props t cx cy st)) in
  (∀ name, name ∈ ["move-up"; "move-down"; "move-top"; "move-bottom"]%string →
     name ∈ (ContextMenu.id <$> its))
  ∧ ∀ it, it ∈ its →
      ((ContextMenu.id it = "move-up"%string ∨ ContextMenu.id it = "move-top"%string) →
         ContextMenu.disabled it = Some (bool_decide (i = 0%nat)))
      ∧ ((ContextMenu.id it = "move-down"%string
          ∨ ContextMenu.id it = "move-bottom"%string) →
         ContextMenu.disabled it
         = Some (bool_decide (S i = length (selectedTasks inst)))).
Proof.
  intros Hinst Hnd Hi its. subst its. unfold handleContextMenu.
  rewrite Hinst. simpl.
  rewrite (findIndex_unique_id _ i _ Hnd Hi).
  assert (bool_decide (Z.of_nat i = 0) = bool_decide (i = 0%nat)) as ->
    by (apply bool_decide_ext; lia).
  assert (bool_decide (Z.of_nat i = Z.of_nat (length (selectedTasks inst)) - 1)
          = bool_decide (S i = length (selectedTasks inst))) as ->
    by (apply bool_decide_ext; lia).
  destruct (match taskDef store props with
            | Some def => hasOptions def
            | None => false
            end); simpl; (split; [intros name Hn | intros it Hit]).
  all: try (split_members Hn; rewrite !elem_of_cons; auto 20).
  all: split_members Hit; simpl; split; intros [?|?]; done.
Qed.

Lemma row_menu_move_entries_witness :
  ContextMenu.disabled
    (entry "move-up" "contextMenu.moveUp" "ChevronUp" (Some true) None
           (Dispatch (MoveTaskUp "inst-1" "a")))
  = Some (bool_decide (0%nat = 0%nat)).
Proof.
  set (it := entry "move-up" "contextMenu.moveUp" "ChevronUp" (Some true) None
                   (Dispatch (MoveTaskUp "inst-1" "a"))).
  assert (NoDup (taskId <$> selectedTasks Sample.threeTasks)) as Hnd
    by (apply (bool_decide_unpack _); vm_compute; exact I).
  assert (it ∈ ContextMenu.items
                 (menuState (handleContextMenu Sample.storeView Sample.rowProps
                               (λ k, k) 40 60 initial))) as Hin
    by (vm_compute;
        repeat first [apply list_elem_of_here | apply list_elem_of_further]).
  exact (proj1 (proj2 (row_menu_move_entries Sample.storeView Sample.rowProps
                         (λ k, k) 40 60 initial Sample.threeTasks 0 eq_refl Hnd
                         eq_refl) it Hin) (or_introl eq_refl)).
Defined.

End RowMenuFacts.

Section RowClickFacts.
Import TaskItem.

Ltac split_entries H :=
  repeat (apply elem_of_cons in H as [-> | H]);
  try (by apply elem_of_nil in H).

(** X12. A click on an entry of the row's freshly opened menu: a
    divider or a disabled entry leaves row and menu as they are and
    sends nothing; every other entry closes the menu and either sends
    the one store command it carries or, for "rename", opens the editor
    on the custom name without sending anything. *)
Theorem row_menu_click (store : StoreView) (props : Props)
    (t : string → string) (cx cy : Z) (st : State) (inst : Instance) :
  activeInstance store = Some inst →
  let opened := handleContextMenu store props t cx cy st in
  ∀ it, it ∈ ContextMenu.items (menuState opened) →
    if Js.truthy (ContextMenu.divider it) || Js.truthy (ContextMenu.disabled it)
    then menuClick props it opened = (opened, [])
    else (∃ c, ContextMenu.onClick it = Some (Dispatch c)
               ∧ menuClick props it opened
                 = (mkSt (isEditing st) (editName st)
                         (ContextMenu.hide (menuState opened)),
                    [Store c]))
         ∨ (ContextMenu.id it = "rename"%string
            ∧ menuClick props it opened
              = (mkSt true (Js.orText (customName (propTask props)) [])
                      (ContextMenu.hide (menuState opened)),
                 [])).
Proof.
  intros Hinst opened it. subst opened. unfold handleContextMenu.
  rewrite Hinst. simpl.
  generalize (bool_decide
                (Js.findIndex (λ t', bool_decide (taskId t' = taskId (propTask props)))
                   (selectedTasks inst) = 0)) as isFirst.
  generalize (bool_decide
                (Js.findIndex (λ t', bool_decide (taskId t' = taskId (propTask props)))
                   (selectedTasks inst)
                 = Z.of_nat (length (selectedTasks inst)) - 1)) as isLast.
  intros isLast isFirst Hit.
  destruct (match taskDef store props with
            | Some def => hasOptions def
            | None => false
            end), isFirst, isLast; simpl in Hit;
    split_entries Hit; simpl; try done;
    try (left; eexists; split; [reflexivity|done]);
    by right.
Qed.

Lemma row_menu_click_witness :
  let opened := handleContextMenu Sample.storeView Sample.rowProps (λ k, k)
                                  40 60 initial in
  let it := entry "delete" "contextMenu.deleteTask" "Trash2" None (Some true)
                  (Dispatch (RemoveTaskFromInstance "inst-1" "a")) in
  if Js.truthy (ContextMenu.divider it) || Js.truthy (ContextMenu.disabled it)
  then menuClick Sample.rowProps it opened = (opened, [])
  else (∃ c, ContextMenu.onClick it = Some (Dispatch c)
             ∧ menuClick Sample.rowProps it opened
               = (mkSt false [] (ContextMenu.hide (menuState opened)), [Store c]))
       ∨ (ContextMenu.id it = "rename"%string
          ∧ menuClick Sample.rowProps it opened
            = (mkSt true (Js.orText (customName (propTask Sample.rowProps)) [])
                    (ContextMenu.hide (menuState opened)),
               [])).
Proof.
  apply (row_menu_click Sample.storeView Sample.rowProps (λ k, k) 40 60 initial
           Sample.threeTasks eq_refl).
  vm_compute.
  repeat first [apply list_elem_of_here | apply list_elem_of_further].
Defined.

(** What [hasOptions] tests: the definition has an [option] field that
    lists at least one key. *)
Lemma hasOptions_declares_key (def : TaskDef) :
  hasOptions def = true ↔ ∃ k ks, defOption def = Some (k :: ks).
Proof.
  unfold hasOptions. destruct (defOption def) as [[|k ks]|]; split; try done.
  - by intros (? & ? & ?).
  - intros _. by exists k, ks.
  - by intros (? & ? & ?).
Qed.

(** X13. For a row whose definition resolves, the expand/collapse
    button is rendered exactly when the definition declares an option
    key and the row is not edited, and the option panel exactly when it
    declares one and the task is expanded; the panel then holds one
    editor per declared key, in order, each with the task's value for
    that key.  A definition without an [option] field, or with an empty
    one, gets neither button nor panel. *)
Theorem options_gate_expand_and_panel (store : StoreView) (props : Props)
    (def : TaskDef) (st : State) (v : View) :
  taskDef store props = Some def →
  render store props st = Some v →
  (ExpandButton ∈ controls v ↔
     (∃ k ks, defOption def = Some (k :: ks)) ∧ isEditing st = false)
  ∧ (is_Some (optionPanel v) ↔
       (∃ k ks, defOption def = Some (k :: ks))
       ∧ expanded (propTask props) = true)
  ∧ ((defOption def = None ∨ defOption def = Some []) →
       (ExpandButton ∉ controls v) ∧ optionPanel v = None)
  ∧ (∀ eds, optionPanel v = Some eds →
       eds ≠ []
       ∧ defOption def = Some (eds.*1)
       ∧ ∀ k x, (k, x) ∈ eds → x = optionValues (propTask props) !! k).
Proof.
  intros Hd. unfold render. rewrite Hd. intros [= <-]. simpl.
  assert (ExpandButton ∈ header def st ↔
            hasOptions def = true ∧ isEditing st = false) as Hbtn.
  { unfold header.
    destruct (hasOptions def), (isEditing st); simpl;
      rewrite ?elem_of_cons; split; try (intros [? ?]; done); try (by auto 10);
      intros H; exfalso;
      repeat (destruct H as [H | H]; [discriminate|]); by apply elem_of_nil in H. }
  split; [|split; [|split]].
  - by rewrite Hbtn, hasOptions_declares_key.
  - rewrite <- hasOptions_declares_key.
    destruct (hasOptions def), (expanded (propTask props)); simpl;
      split; try (intros [? ?]; done); try (by intros [? ?]); try done;
      intros _; by eexists.
  - intros Hnone.
    assert (hasOptions def = false) as Hno.
    { unfold hasOptions. by destruct Hnone as [-> | ->]. }
    split.
    + rewrite Hbtn, Hno. by intros [? _].
    + by rewrite Hno.
  - intros eds. unfold hasOptions.
    destruct (defOption def) as [[|k ks]|]; simpl; try done.
    destruct (expanded (propTask props)); simpl; [|done].
    intros [= <-]. split; [done|]. split.
    + assert (∀ l : list string,
                ((λ k0, (k0, optionValues (propTask props) !! k0)) <$> l).*1 = l)
        as Hfst by (induction l as [|a l IH]; [done|]; rewrite !fmap_cons;
                    simpl; f_equal; exact IH).
      simpl. do 2 f_equal. symmetry. apply Hfst.
    + intros k' x Hin.
      change ((k', x) ∈ (λ k0, (k0, optionValues (propTask props) !! k0)) <$> (k :: ks))
        in Hin.
      apply list_elem_of_fmap in Hin as (k0 & [= -> ->] & _). done.
Qed.

Lemma options_gate_expand_and_panel_witness :
  ∃ v, render Sample.storeView Sample.rowProps initial = Some v
       ∧ (ExpandButton ∈ controls v ↔
            (∃ k ks,
               defOption (mkTaskDef "StartUp" [83; 116; 97; 114; 116]%N
                                    (Some ["mode"%string])) = Some (k :: ks))
            ∧ isEditing initial = false).
Proof.
  eexists. split; [reflexivity|].
  apply (options_gate_expand_and_panel Sample.storeView Sample.rowProps
           (mkTaskDef "StartUp" [83; 116; 97; 114; 116]%N (Some ["mode"%string]))
           initial _ eq_refl eq_refl).
Defined.

(** X14. A row that is not being edited never sends a rename: whatever
    the gesture, no [RenameTask] is among its effects. *)
Theorem viewing_never_renames (store : StoreView) (props : Props)
    (g : Gesture) (st : State) (i k : string) (name : Js.text) :
  isEditing st = false →
  Store (RenameTask i k name) ∉ snd (activate store props g st).
Proof.
  intros Hview. unfold activate, render.
  destruct (taskDef store props) as [def|]; simpl; [|by apply not_elem_of_nil].
  rewrite (header_viewing def st Hview).
  case_bool_decide as Hin; simpl; [|by apply not_elem_of_nil].
  destruct g; simpl in *;
    try (by apply not_elem_of_nil);
    try (intros H; apply list_elem_of_singleton in H; discriminate).
  all: exfalso; revert Hin; destruct (hasOptions def); simpl;
    rewrite !elem_of_cons; intros H;
    repeat (destruct H as [H | H]; [discriminate|]); by apply elem_of_nil in H.
Qed.

Lemma viewing_never_renames_witness :
  Store (RenameTask "inst-1" "a" [])
  ∉ snd (activate Sample.storeView Sample.rowProps InputBlur initial).
Proof.
  apply (viewing_never_renames Sample.storeView Sample.rowProps InputBlur
           initial "inst-1" "a" []). reflexivity.
Defined.

End RowClickFacts.

(** ** More on the task list *)

Section TaskListMore.
Import TaskList TaskListView.

Lemma findIndex_spec {A} (p : A → bool) (l : list A) :
  (Js.findIndex p l = -1 ∧ ∀ a, a ∈ l → p a = false)
  ∨ (∃ (i : nat) a, Js.findIndex p l = Z.of_nat i ∧ l !! i = Some a
                    ∧ p a = true).
Proof.
  induction l as [|c l IH]; simpl.
  - left. split; [done|]. intros a Ha. by apply elem_of_nil in Ha.
  - destruct (p c) eqn:Hc.
    + right. by exists 0%nat, c.
    + destruct IH as [[Hr Hnone] | (i & a & Hr & Hi & Ha)]; rewrite Hr.
      * left. split; [done|]. intros a [-> | Ha]%elem_of_cons; [done|by apply Hnone].
      * right. exists (S i), a.
        destruct (Z.ltb_spec (Z.of_nat i) 0); [lia|]. split; [lia|done].
Qed.

(** X15. Whatever the list and the event, the drag-end handler issues
    at most one command, only for a drop on an id other than the
    dragged one, and always for the active instance; each index it
    carries is either the position of a task bearing the dragged
    (respectively the target) id, or -1 when no task of the list bears
    that id. *)
Theorem handleDragEnd_indices (inst : Instance) (ev : DragEndEvent)
    (c : StoreCommand) :
  c ∈ handleDragEnd (Some inst) ev →
  ∃ overId from to,
    over ev = Some overId ∧ active ev ≠ overId
    ∧ handleDragEnd (Some inst) ev = [c]
    ∧ c = ReorderTasks (instanceId inst) from to
    ∧ ((from = -1 ∧ active ev ∉ (taskId <$> selectedTasks inst))
       ∨ ∃ (i : nat) tk, from = Z.of_nat i ∧ selectedTasks inst !! i = Some tk
                         ∧ taskId tk = active ev)
    ∧ ((to = -1 ∧ overId ∉ (taskId <$> selectedTasks inst))
       ∨ ∃ (j : nat) tk, to = Z.of_nat j ∧ selectedTasks inst !! j = Some tk
                         ∧ taskId tk = overId).
Proof.
  unfold handleDragEnd. destruct (over ev) as [overId|]; [|by intros ?%elem_of_nil].
  case_bool_decide as Hne; [|by intros ?%elem_of_nil].
  intros ->%list_elem_of_singleton.
  eexists overId, _, _. split; [done|]. split; [done|]. split; [reflexivity|].
  split; [reflexivity|]. split.
  - destruct (findIndex_spec (λ t, bool_decide (taskId t = active ev))
                (selectedTasks inst)) as [[Hr Hnone] | (i & a & Hr & Hi & Ha)].
    + left. split; [done|]. intros (tk & Hid & Hin)%list_elem_of_fmap.
      specialize (Hnone tk Hin). by apply bool_decide_eq_false in Hnone.
    + right. exists i, a. by apply bool_decide_eq_true in Ha.
  - destruct (findIndex_spec (λ t, bool_decide (taskId t = overId))
                (selectedTasks inst)) as [[Hr Hnone] | (i & a & Hr & Hi & Ha)].
    + left. split; [done|]. intros (tk & Hid & Hin)%list_elem_of_fmap.
      specialize (Hnone tk Hin). by apply bool_decide_eq_false in Hnone.
    + right. exists i, a. by apply bool_decide_eq_true in Ha.
Qed.

Lemma handleDragEnd_indices_witness :
  ∃ overId from to,
    over (mkDragEnd "b" (Some "ghost")) = Some overId
    ∧ active (mkDragEnd "b" (Some "ghost")) ≠ overId
    ∧ handleDragEnd (Some Sample.threeTasks) (mkDragEnd "b" (Some "ghost"))
      = [ReorderTasks "inst-1" 1 (-1)]
    ∧ ReorderTasks "inst-1" 1 (-1) = ReorderTasks (instanceId Sample.threeTasks) from to
    ∧ ((from = -1 ∧ active (mkDragEnd "b" (Some "ghost"))
                    ∉ (taskId <$> selectedTasks Sample.threeTasks))
       ∨ ∃ (i : nat) tk, from = Z.of_nat i
                         ∧ selectedTasks Sample.threeTasks !! i = Some tk
                         ∧ taskId tk = active (mkDragEnd "b" (Some "ghost")))
    ∧ ((to = -1 ∧ overId ∉ (taskId <$> selectedTasks Sample.threeTasks))
       ∨ ∃ (j : nat) tk, to = Z.of_nat j
                         ∧ selectedTasks Sample.threeTasks !! j = Some tk
                         ∧ taskId tk = overId).
Proof.
  apply (handleDragEnd_indices Sample.threeTasks (mkDragEnd "b" (Some "ghost"))
           (ReorderTasks "inst-1" 1 (-1))).
  by left.
Defined.

(** X16. The ids the list hands to the sortable context are the keys of
    its rows, in list order and without repetition when the task ids
    are distinct; the rows carry, in order, the tasks of the instance,
    each with the instance id and keyed by its own task's id; dropping
    the row listed at position [i] on the row listed at position [j]
    reorders from [i] to [j]. *)
Theorem sortable_items_drive_reorder (inst : Instance)
    (ms : ContextMenu.ContextMenuState ListAction)
    (ids : list string) (rows : list (string * TaskItem.Props)) menu :
  NoDup (taskId <$> selectedTasks inst) →
  render (Some inst) ms = SortableList ids rows menu →
  ids = rows.*1
  ∧ NoDup ids
  ∧ length rows = length (selectedTasks inst)
  ∧ TaskItem.propTask <$> rows.*2 = selectedTasks inst
  ∧ (∀ (i : nat) tk, selectedTasks inst !! i = Some tk →
       rows !! i = Some (taskId tk, TaskItem.mkProps (instanceId inst) tk))
  ∧ (∀ k p, (k, p) ∈ rows →
       TaskItem.propInstanceId p = instanceId inst
       ∧ taskId (TaskItem.propTask p) = k
       ∧ TaskItem.propTask p ∈ selectedTasks inst)
  ∧ ∀ (i j : nat) a b, ids !! i = Some a → ids !! j = Some b → i ≠ j →
      handleDragEnd (Some inst) (mkDragEnd a (Some b))
      = [ReorderTasks (instanceId inst) (Z.of_nat i) (Z.of_nat j)].
Proof.
  intros Hnd. unfold render. case_bool_decide as Hlen; [done|].
  intros [= <- <- _]. split; [|split; [|split; [|split; [|split; [|split]]]]].
  - rewrite <- list_fmap_compose. by apply list_fmap_ext.
  - done.
  - by rewrite length_fmap.
  - rewrite <- !list_fmap_compose.
    rewrite <- (list_fmap_id (selectedTasks inst)) at 2. by apply list_fmap_ext.
  - intros i tk Hi. by rewrite list_lookup_fmap, Hi.
  - intros k p (tk & [= -> ->] & Hin)%list_elem_of_fmap. done.
  - intros i j a b Hi Hj Hij.
    rewrite list_lookup_fmap in Hi, Hj.
    destruct (selectedTasks inst !! i) as [ti|] eqn:Hti; [|done].
    destruct (selectedTasks inst !! j) as [tj|] eqn:Htj; [|done].
    simpl in Hi, Hj. injection Hi as <-. injection Hj as <-.
    unfold handleDragEnd; simpl. rewrite bool_decide_eq_true_2.
    + by rewrite (findIndex_unique_id _ i ti Hnd Hti),
                 (findIndex_unique_id _ j tj Hnd Htj).
    + intros Heq. apply Hij.
      apply (NoDup_lookup _ _ _ (taskId ti) Hnd); rewrite list_lookup_fmap.
      * by rewrite Hti.
      * by rewrite Htj, Heq.
Qed.

Lemma sortable_items_drive_reorder_witness :
  (∃ rows : list (string * TaskItem.Props),
     TaskItem.propTask <$> rows.*2 = selectedTasks Sample.threeTasks
           ∧ length rows = 3%nat)
  ∧ handleDragEnd (Some Sample.threeTasks) (mkDragEnd "b" (Some "c"))
    = [ReorderTasks (instanceId Sample.threeTasks) (Z.of_nat 1) (Z.of_nat 2)].
Proof.
  assert (NoDup (taskId <$> selectedTasks Sample.threeTasks)) as Hnd
    by (apply (bool_decide_unpack _); vm_compute; exact I).
  pose proof (sortable_items_drive_reorder Sample.threeTasks
                ContextMenu.initialState _ _ _ Hnd eq_refl)
    as (_ & _ & Hlen & Htasks & _ & _ & Hdrag).
  split.
  - eexists. split; [exact Htasks | exact Hlen].
  - apply (Hdrag 1%nat 2%nat "b"%string "c"%string eq_refl eq_refl). lia.
Defined.

Lemma existsb_none {A} (f : A → bool) (l : list A) :
  negb (existsb f l) = true ↔ Forall (λ x, f x = false) l.
Proof.
  induction l as [|a l IH]; simpl; [by split; [constructor|]|].
  rewrite Forall_cons, <- IH. destruct (f a); simpl; [|tauto].
  split; [done|]. by intros [? _].
Qed.

(** X17. The list menu: without an instance a right click opens
    nothing; with an empty list the menu holds the single entry "add";
    otherwise it holds "add", a divider, "select-all" and
    "collapse-all".  "add" flips the add-task panel; "select-all"
    enables all tasks exactly when none is enabled, and disables them
    otherwise; "collapse-all" carries [true] exactly when no task is
    expanded. *)
Theorem list_menu_entries (t : string → string) (inst : Instance)
    (showAddTaskPanel : bool) (cx cy : Z)
    (ms : ContextMenu.ContextMenuState ListAction) :
  let opened := handleListContextMenu t (Some inst) showAddTaskPanel cx cy ms in
  let its := ContextMenu.items opened in
  handleListContextMenu t None showAddTaskPanel cx cy ms = ms
  ∧ ContextMenu.isOpen opened = true
  ∧ ContextMenu.id <$> its
    = (if bool_decide (selectedTasks inst = []) then ["add"]
       else ["add"; "divider-1"; "select-all"; "collapse-all"])%string
  ∧ ∀ it, it ∈ its →
      (ContextMenu.id it = "add"%string →
         ContextMenu.onClick it = Some (SetShowAddTaskPanel (negb showAddTaskPanel)))
      ∧ (ContextMenu.id it = "select-all"%string →
         ∃ b, ContextMenu.onClick it = Some (SelectAllTasks (instanceId inst) b)
              ∧ (b = true ↔ Forall (λ tk, enabled tk = false) (selectedTasks inst)))
      ∧ (ContextMenu.id it = "collapse-all"%string →
         ∃ b, ContextMenu.onClick it = Some (CollapseAllTasks (instanceId inst) b)
              ∧ (b = true ↔ Forall (λ tk, expanded tk = false) (selectedTasks inst))).
Proof.
  intros opened its. subst its opened. unfold handleListContextMenu.
  split; [done|]. split; [done|].
  destruct (selectedTasks inst) as [|tk tks] eqn:Hts; simpl.
  - split; [done|]. intros it ->%list_elem_of_singleton. simpl.
    by repeat split.
  - split; [done|]. intros it Hit.
    repeat (apply elem_of_cons in Hit as [-> | Hit]);
      try (by apply elem_of_nil in Hit); simpl;
      (split; [|split]); try done; intros _; eexists; (split; [reflexivity|]).
    + apply (existsb_none enabled (tk :: tks)).
    + apply (existsb_none expanded (tk :: tks)).
Qed.

Lemma list_menu_entries_witness :
  ∃ b, ContextMenu.onClick
         (ContextMenu.mkMenuItem "select-all" "contextMenu.deselectAll"
            (Some "Square"%string) None None None None None
            (Some (SelectAllTasks "inst-1" false)) None)
       = Some (SelectAllTasks "inst-1" b)
       ∧ (b = true ↔ Forall (λ tk, enabled tk = false)
                            (selectedTasks Sample.threeTasks)).
Proof.
  set (it := ContextMenu.mkMenuItem "select-all" "contextMenu.deselectAll"
               (Some "Square"%string) None None None None None
               (Some (SelectAllTasks "inst-1" false)) None).
  assert (it ∈ ContextMenu.items
                 (handleListContextMenu (λ k, k) (Some Sample.threeTasks) false
                                        10 20 ContextMenu.initialState)) as Hin
    by (vm_compute;
        repeat first [apply list_elem_of_here | apply list_elem_of_further]).
  exact (proj1 (proj2 (proj2 (proj2 (proj2
           (list_menu_entries (λ k, k) Sample.threeTasks false 10 20
                              ContextMenu.initialState))) it Hin)) eq_refl).
Defined.

End TaskListMore.

(** ** The logs panel *)

Section LogsFacts.
Import LogsPanel.

Variable clock : Z → string.
Variable t : string → string.

Lemma no_logs (ls : list LogEntry) :
  bool_decide (length ls = 0%nat) = bool_decide (ls = []).
Proof. apply bool_decide_ext. by destruct ls. Qed.

(** X18. The freshly opened logs menu holds the entries "copy",
    "clear", a divider and "toggle-panel", in this order; "copy" and
    "clear" are disabled, in the menu and as header buttons alike,
    exactly when the log list is empty, and the toggle never is.  With
    an empty log a click on the copy or clear button does nothing;
    otherwise copy writes the text of the log to the clipboard and
    clear empties the log; the toggle button always toggles the side
    panel. *)
Theorem log_controls_disabled_iff_empty (expandedSide : bool) (cx cy : Z)
    (st : State) :
  let opened := handleContextMenu t expandedSide cx cy st in
  let off := bool_decide (logs st = []) in
  ContextMenu.isOpen (menuState opened) = true
  ∧ (λ it, (ContextMenu.id it, ContextMenu.disabled it))
      <$> ContextMenu.items (menuState opened)
    = [("copy", Some off); ("clear", Some off);
       ("divider-1", None); ("toggle-panel", None)]%string
  ∧ buttonDisabled CopyButton st = off
  ∧ buttonDisabled ClearButton st = off
  ∧ buttonDisabled ToggleButton st = false
  ∧ (logs st = [] →
       headerClick clock CopyButton st = (st, [])
       ∧ headerClick clock ClearButton st = (st, []))
  ∧ (logs st ≠ [] →
       headerClick clock CopyButton st
       = (st, [ClipboardWrite (copyText clock (logs st))])
       ∧ headerClick clock ClearButton st = (mkSt [] (menuState st), []))
  ∧ headerClick clock ToggleButton st = (st, [ToggleSidePanel]).
Proof.
  intros opened off. subst opened off.
  unfold headerClick, buttonDisabled, handleContextMenu; simpl. rewrite !no_logs.
  split; [done|]. split; [done|]. split; [done|]. split; [done|].
  split; [done|]. split; [|split; [|done]].
  - intros Hnil. by rewrite bool_decide_eq_true_2.
  - intros Hne. by rewrite bool_decide_eq_false_2.
Qed.

(** X19. A click in the freshly opened logs menu: with an empty log
    "copy" and "clear" do nothing and leave the menu open; otherwise
    "copy" writes the text of the log to the clipboard, "clear" empties
    the log, and both close the menu; the toggle entry always toggles
    the side panel and closes the menu; the divider does nothing. *)
Theorem logs_menu_click (expandedSide : bool) (cx cy : Z) (st : State) :
  let opened := handleContextMenu t expandedSide cx cy st in
  let closed := ContextMenu.hide (menuState opened) in
  ∀ it, it ∈ ContextMenu.items (menuState opened) →
    (ContextMenu.id it = "copy"%string →
       menuClick clock it opened
       = if bool_decide (logs st = []) then (opened, [])
         else (mkSt (logs st) closed, [ClipboardWrite (copyText clock (logs st))]))
    ∧ (ContextMenu.id it = "clear"%string →
       menuClick clock it opened
       = if bool_decide (logs st = []) then (opened, [])
         else (mkSt [] closed, []))
    ∧ (ContextMenu.id it = "toggle-panel"%string →
       menuClick clock it opened = (mkSt (logs st) closed, [ToggleSidePanel]))
    ∧ (ContextMenu.id it = "divider-1"%string →
       menuClick clock it opened = (opened, [])).
Proof.
  intros opened closed it. subst closed opened.
  unfold handleContextMenu; simpl. rewrite !no_logs. intros Hit.
  repeat (apply elem_of_cons in Hit as [-> | Hit]);
    try (by apply elem_of_nil in Hit);
    repeat split; try done; intros _;
    unfold menuClick, ContextMenu.MenuItemComponent, ContextMenu.handleClick; simpl;
    by destruct (bool_decide (logs st = [])).
Qed.

(** X20. After the clear button the panel shows its placeholder, the
    auto-scroll effect finds no sentinel, and copy and clear are dead
    until an entry exists; in any state the effect scrolls exactly when
    the log is not empty. *)
Theorem clear_empties_panel (st : State) :
  let cleared := fst (headerClick clock ClearButton st) in
  logs cleared = []
  ∧ snd (headerClick clock ClearButton st) = []
  ∧ body clock cleared = NoLogs
  ∧ scrollsIntoView clock cleared = false
  ∧ headerClick clock CopyButton cleared = (cleared, [])
  ∧ headerClick clock ClearButton cleared = (cleared, [])
  ∧ (scrollsIntoView clock st = true ↔ logs st ≠ []).
Proof.
  destruct st as [ls ms]. unfold headerClick, scrollsIntoView, body, buttonDisabled.
  simpl. destruct ls as [|l ls]; simpl; repeat split; try done.
Qed.

Lemma splitLines_plain (s : string) :
  hasLineBreak s = false → splitLines s = [s].
Proof.
  induction s as [|c s IH]; simpl; [done|].
  destruct (Ascii.eqb c lineFeed); simpl; [done|]. intros H. by rewrite (IH H).
Qed.

Lemma splitLines_break (a b : string) :
  hasLineBreak a = false →
  splitLines (a ++ newline ++ b)%string = a :: splitLines b.
Proof.
  induction a as [|c a IH]; simpl.
  - done.
  - destruct (Ascii.eqb c lineFeed); simpl; [done|]. intros H. by rewrite (IH H).
Qed.

(** X21. The text copy-all writes holds one line per log entry, in
    order: provided no time text and no message contains a line break,
    splitting the copied text at its line breaks gives back the lines
    "[time] message" of a non-empty log. *)
Theorem copied_text_lines (ls : list LogEntry) :
  ls ≠ [] →
  Forall (λ l, hasLineBreak (line clock l) = false) ls →
  splitLines (copyText clock ls) = line clock <$> ls.
Proof.
  intros Hne Hplain. unfold copyText.
  induction Hplain as [|l ls Hl Hls IH]; [done|].
  destruct ls as [|l' ls'].
  - change (splitLines (line clock l) = [line clock l]).
    by apply splitLines_plain.
  - rewrite fmap_cons.
    change (String.concat newline (line clock l :: (line clock <$> (l' :: ls'))))
      with (line clock l ++ newline
            ++ String.concat newline (line clock <$> (l' :: ls')))%string.
    rewrite (splitLines_break _ _ Hl). f_equal. by apply IH.
Qed.

End LogsFacts.

Lemma copied_text_lines_witness :
  LogsPanel.splitLines (LogsPanel.copyText Sample2.clock Sample2.twoLogs)
  = LogsPanel.line Sample2.clock <$> Sample2.twoLogs.
Proof.
  apply (copied_text_lines Sample2.clock Sample2.twoLogs).
  - discriminate.
  - repeat constructor.
Defined.

Lemma log_controls_disabled_iff_empty_witness :
  let opened := LogsPanel.handleContextMenu (λ k, k) true 10 20 Sample2.logsShown in
  (λ it, (ContextMenu.id it, ContextMenu.disabled it))
    <$> ContextMenu.items (LogsPanel.menuState opened)
  = [("copy", Some false); ("clear", Some false);
     ("divider-1", None); ("toggle-panel", None)]%string
  ∧ LogsPanel.headerClick Sample2.clock LogsPanel.ClearButton Sample2.logsShown
    = (LogsPanel.mkSt [] (LogsPanel.menuState Sample2.logsShown), []).
Proof.
  pose proof (log_controls_disabled_iff_empty Sample2.clock (λ k, k) true 10 20
                Sample2.logsShown) as (_ & Hitems & _ & _ & _ & _ & Hfull & _).
  split.
  - exact Hitems.
  - apply Hfull. discriminate.
Defined.

Lemma logs_menu_click_witness :
  let opened := LogsPanel.handleContextMenu (λ k, k) true 10 20 Sample2.logsShown in
  LogsPanel.menuClick Sample2.clock
    (ContextMenu.mkMenuItem "clear" "logs.clear" (Some "Trash2"%string) None
       (Some false) (Some true) None None (Some LogsPanel.Clear) None)
    opened
  = if bool_decide (LogsPanel.logs Sample2.logsShown = []) then (opened, [])
    else (LogsPanel.mkSt [] (ContextMenu.hide (LogsPanel.menuState opened)), []).
Proof.
  set (it := ContextMenu.mkMenuItem "clear" "logs.clear" (Some "Trash2"%string) None
               (Some false) (Some true) None None (Some LogsPanel.Clear) None).
  assert (it ∈ ContextMenu.items
                 (LogsPanel.menuState
                    (LogsPanel.handleContextMenu (λ k, k) true 10 20
                                                 Sample2.logsShown))) as Hin
    by (vm_compute;
        repeat first [apply list_elem_of_here | apply list_elem_of_further]).
  exact (proj1 (proj2 (logs_menu_click Sample2.clock (λ k, k) true 10 20
                         Sample2.logsShown it Hin)) eq_refl).
Defined.

(** ** Geometry of the onboarding backdrop *)

Section LayoutFacts.
Import Onboarding OverlayLayout.
Local Open Scope Z_scope.

(** X22. For the overlay the component paints, in a viewport of any
    size: no point lies inside two of the three backdrop rectangles, no
    point inside the highlight frame lies in a backdrop rectangle, the
    frame's left edge is the backdrop's inner edge, and every point of
    the viewport is in a backdrop rectangle or in the band to the right
    of that edge between the card's top and bottom. *)
Theorem backdrop_spares_card (w : World) (o : Overlay) (W H x y : Z) :
  render w = Some o →
  boxLeft (highlight W o) = boxRight (leftMask W H o)
  ∧ ¬ (inside (leftMask W H o) x y ∧ inside (topMask W o) x y)
  ∧ ¬ (inside (leftMask W H o) x y ∧ inside (bottomMask W H o) x y)
  ∧ ¬ (inside (topMask W o) x y ∧ inside (bottomMask W H o) x y)
  ∧ (inside (highlight W o) x y →
     ∀ m, m ∈ masks W H o → ¬ within m x y)
  ∧ (0 <= x <= W → 0 <= y <= H →
     (∃ m, m ∈ masks W H o ∧ within m x y)
     ∨ (boxLeft (highlight W o) <= x ∧ 79 <= y <= 79 + 222)).
Proof.
  unfold render. destruct (mounted (comp w) && isVisible (comp w)); [|done].
  intros [= <-]. unfold inside, within, masks, leftMask, topMask, bottomMask,
    highlight; simpl.
  split; [lia|]. split; [lia|]. split; [lia|]. split; [lia|]. split.
  - intros Hin m Hm.
    repeat (apply elem_of_cons in Hm as [-> | Hm]);
      try (by apply elem_of_nil in Hm); simpl; lia.
  - intros Hx Hy.
    destruct (Z_le_gt_dec x (W - (5 + (rightPanelWidth (store w) - 12)))) as [Hl|Hr].
    + left. eexists. split; [by left|]. simpl. lia.
    + destruct (Z_le_gt_dec y 79) as [Ht|Hb].
      * left. eexists. split; [right; by left|]. simpl. lia.
      * destruct (Z_le_gt_dec (79 + 222) y) as [Hb'|Hin].
        -- left. eexists. split; [right; right; by left|]. simpl. lia.
        -- right. lia.
Qed.

Lemma backdrop_spares_card_witness :
  boxLeft (highlight 1280 (mkOverlay false 79 222 5 308 313))
  = boxRight (leftMask 1280 720 (mkOverlay false 79 222 5 308 313)).
Proof.
  assert (render (run [Mount; Advance 500] (page Sample.firstRun))
          = Some (mkOverlay false 79 222 5 308 313)) as Hr
    by (vm_compute; reflexivity).
  apply (backdrop_spares_card _ _ 1280 720 0 0 Hr).
Defined.

End LayoutFacts.

(** ** More on the onboarding overlay *)

Section OnboardingMore.
Import Onboarding.
Local Open Scope nat_scope.

Lemma mounted_phase s es :
  forallb ambient es = true →
  let w := run (Mount :: es) (page s) in
  (onboardingCompleted s = false → Phase 500 w)
  ∧ (onboardingCompleted s = true → Over w)
  ∧ now w = elapsed es.
Proof.
  intros Hes w. subst w.
  change (run (Mount :: es) (page s)) with (run es (mount (page s))).
  split; [|split].
  - intros Hs. apply phase_run; [done|]. left. by apply mount_fresh.
  - intros Hs. apply over_run; [done|]. by apply mount_completed.
  - rewrite (now_run es _ Hes). unfold mount. by rewrite now_commit.
Qed.

Lemma phase_flag t0 w :
  Phase t0 w → onboardingCompleted (store w) = true → Over w.
Proof.
  intros [Hp | [[Hsh _] | [[Hl _] | [Ho _]]]] Hflag; [| | |done].
  - destruct Hp; simpl in *; congruence.
  - destruct Hsh; simpl in *; congruence.
  - destruct Hl; simpl in *; congruence.
Qed.

(** X23. Dismissal is permanent: once the completed flag is stored,
    however the mounted overlay got there, it paints nothing and the
    flag stays stored through every later clock, pointer and store
    event. *)
Theorem dismissal_is_permanent (s : Store) (es es' : list Event) :
  forallb ambient es = true →
  forallb ambient es' = true →
  let w := run (Mount :: es) (page s) in
  onboardingCompleted (store w) = true →
  render (run es' w) = None
  ∧ onboardingCompleted (store (run es' w)) = true.
Proof.
  intros Hes Hes' w Hflag.
  destruct (mounted_phase s es Hes) as (Hfresh & Hdone & _). fold w in Hfresh, Hdone.
  assert (Over w) as Ho.
  { destruct (onboardingCompleted s) eqn:Hs; [by apply Hdone|].
    apply (phase_flag 500); [by apply Hfresh|done]. }
  pose proof (over_run es' w Hes' Ho) as Ho'.
  split; [by apply over_hidden|]. by destruct Ho' as (_ & _ & ? & _).
Qed.

Lemma dismissal_is_permanent_witness :
  render (run [Advance 1000; ConnectionStatus "inst-1" "Connected"]
              (run [Mount; Advance 500; DismissClick; Advance 200]
                   (page Sample.firstRun))) = None
  ∧ onboardingCompleted
      (store (run [Advance 1000; ConnectionStatus "inst-1" "Connected"]
                  (run [Mount; Advance 500; DismissClick; Advance 200]
                       (page Sample.firstRun)))) = true.
Proof.
  apply (dismissal_is_permanent Sample.firstRun
           [Advance 500; DismissClick; Advance 200]
           [Advance 1000; ConnectionStatus "inst-1" "Connected"]);
    by vm_compute.
Defined.

Lemma leaving_tick_before lo w :
  Leaving lo w → S (now w) < lo → Leaving lo (tick w).
Proof.
  intros Hl Hlo. apply (leaving_tick lo w Hl).
  destruct Hl as [s ref n nx ts Hs Hne Hts]; simpl in *.
  eapply Forall_impl; [exact Hts|]. simpl. intros t (_ & _ & ?). lia.
Qed.

Lemma leaving_advance_before lo ms w :
  Leaving lo w → now w + ms < lo → Leaving lo (advance ms w).
Proof.
  revert w. induction ms as [|ms IH]; intros w Hl Hlo; simpl; [done|].
  apply IH.
  - apply leaving_tick_before; [done|lia].
  - rewrite now_tick. lia.
Qed.

Lemma leaving_run_before lo es w :
  forallb ambient es = true →
  Leaving lo w → now w + elapsed es < lo → Leaving lo (run es w).
Proof.
  revert w. induction es as [|e es IH]; intros w; simpl; [done|].
  intros [He Hes]%andb_prop Hl Hlo.
  assert (now (step e w) = now w + elapsed [e]) as Hnow by (by apply now_step).
  apply (IH _ Hes).
  - destruct e; try done; try (by apply leaving_instant).
    simpl. apply leaving_advance_before; [done|lia].
  - rewrite Hnow. destruct e; simpl in *; lia.
Qed.

(** X24. The exit animation is never cut short: after a manual
    dismissal of an overlay that was painted and not yet leaving, the
    overlay stays painted, in its exiting look and with the flag still
    unset, through every sequence of events spanning less than 200ms. *)
Theorem exit_animation_lasts (s : Store) (es es' : list Event) :
  onboardingCompleted s = false →
  forallb ambient es = true →
  forallb ambient es' = true →
  let w := run (Mount :: es) (page s) in
  is_Some (render w) →
  isExiting (comp w) = false →
  elapsed es' < 200 →
  let w' := run es' (step DismissClick w) in
  is_Some (render w')
  ∧ isExiting (comp w') = true
  ∧ onboardingCompleted (store w') = false.
Proof.
  intros Hs Hes Hes' w Hv Hx Hshort w'.
  destruct (mounted_phase s es Hes) as (Hfresh & _ & _). fold w in Hfresh.
  destruct (phase_visible 500 w (Hfresh Hs) Hv) as [[Hsh _] | [Hl _]].
  - assert (Leaving (now w + 200) w') as Hl'.
    { apply leaving_run_before; [done|by apply shown_click|].
      rewrite (now_step DismissClick w eq_refl).
      change (elapsed [DismissClick]) with 0. lia. }
    destruct (leaving_visible _ _ Hl') as [Hv' Hx'].
    split; [done|]. split; [done|]. by destruct Hl'.
  - destruct (leaving_visible _ _ Hl) as [_ Hx']. congruence.
Qed.

Lemma exit_animation_lasts_witness :
  is_Some (render (run [Advance 199]
                       (step DismissClick
                          (run [Mount; Advance 500] (page Sample.firstRun)))))
  ∧ isExiting (comp (run [Advance 199]
                         (step DismissClick
                            (run [Mount; Advance 500] (page Sample.firstRun))))) = true
  ∧ onboardingCompleted
      (store (run [Advance 199]
                  (step DismissClick
                     (run [Mount; Advance 500] (page Sample.firstRun))))) = false.
Proof.
  apply (exit_animation_lasts Sample.firstRun [Advance 500] [Advance 199]).
  - reflexivity.
  - reflexivity.
  - reflexivity.
  - vm_compute. by eexists.
  - by vm_compute.
  - simpl. lia.
Defined.

Lemma idle_tick t0 w :
  (PendingAt t0 w ∧ connectedAndLoaded (store w) = false) ∨ Shown w →
  (PendingAt t0 (tick w) ∧ connectedAndLoaded (store (tick w)) = false)
  ∨ Shown (tick w).
Proof.
  intros [[Hp Hc] | Hsh]; [|right; by apply shown_tick].
  destruct Hp as [s id n nx Hs Hid Hn]. simpl in Hc. unfold tick; simpl.
  rewrite filter_cons, filter_nil; simpl. case_decide as Hdue.
  - right. simpl. rewrite bool_decide_eq_true_2 by (by left).
    unfold clearTimeout; simpl.
    rewrite filter_cons_False, filter_nil by (by intros H; apply H).
    unfold setIsVisible, setComp; simpl.
    rewrite (commit_visible _ _ _ _ _ _ _ Hs).
    rewrite bool_decide_eq_false_2 by done. rewrite Hc. by constructor.
  - left. simpl. split; [|done]. constructor; [done|done|lia].
Qed.

Lemma idle_advance t0 ms w :
  (PendingAt t0 w ∧ connectedAndLoaded (store w) = false) ∨ Shown w →
  (PendingAt t0 (advance ms w) ∧ connectedAndLoaded (store (advance ms w)) = false)
  ∨ Shown (advance ms w).
Proof.
  revert w. induction ms as [|ms IH]; intros w Hw; simpl; [done|].
  by apply IH, idle_tick.
Qed.

(** X25. Left alone, the overlay stays: mounted with the flag unset
    and the active instance not both connected and loaded, once 500ms
    have passed it is painted, not exiting and the flag is unset, for
    as long as only time passes. *)
Theorem idle_overlay_stays (s : Store) (ms : nat) :
  onboardingCompleted s = false →
  connectedAndLoaded s = false →
  500 ≤ ms →
  let w := run [Mount; Advance ms] (page s) in
  is_Some (render w)
  ∧ isExiting (comp w) = false
  ∧ onboardingCompleted (store w) = false.
Proof.
  intros Hs Hc Hlate w.
  assert ((PendingAt 500 w ∧ connectedAndLoaded (store w) = false) ∨ Shown w) as Hw.
  { subst w. change (run [Mount; Advance ms] (page s))
      with (advance ms (mount (page s))).
    apply idle_advance. left. split; [by apply mount_fresh|].
    unfold mount. by rewrite store_commit. }
  assert (now w = ms) as Hnow.
  { subst w. change (run [Mount; Advance ms] (page s))
      with (advance ms (mount (page s))).
    rewrite now_advance. unfold mount. by rewrite now_commit. }
  destruct Hw as [[Hp _] | Hsh].
  - apply pending_time in Hp. lia.
  - split; [by apply shown_visible|]. by destruct Hsh.
Qed.

Lemma idle_overlay_stays_witness :
  is_Some (render (run [Mount; Advance 900] (page Sample.firstRun)))
  ∧ isExiting (comp (run [Mount; Advance 900] (page Sample.firstRun))) = false
  ∧ onboardingCompleted (store (run [Mount; Advance 900] (page Sample.firstRun)))
    = false.
Proof.
  apply (idle_overlay_stays Sample.firstRun 900); [reflexivity|reflexivity|lia].
Defined.

Lemma gone_step e w :
  ambient e = true →
  mounted (comp w) = false → timers w = [] →
  mounted (comp (step e w)) = false ∧ timers (step e w) = []
  ∧ onboardingCompleted (store (step e w)) = onboardingCompleted (store w).
Proof.
  intros He Hm Ht. destruct w as [s c n nx ts]; simpl in *; subst.
  destruct e; try done; simpl.
  - induction ms as [|ms IH] in n |- *; simpl; [done|]. apply IH.
  - unfold render; simpl. by rewrite Hm.
  - unfold commit; simpl. by rewrite Hm.
  - unfold commit; simpl. by rewrite Hm.
  - unfold commit; simpl. by rewrite Hm.
Qed.

(** X26. Unmounting before the display delay has passed leaves nothing
    behind: the timer queue is empty, and through every later clock and
    store event nothing is painted, no timer appears and the completed
    flag stays unset. *)
Theorem early_unmount_is_clean (s : Store) (es es' : list Event) :
  onboardingCompleted s = false →
  forallb ambient es = true →
  forallb ambient es' = true →
  elapsed es < 500 →
  let w := run es' (unmount (run (Mount :: es) (page s))) in
  timers w = []
  ∧ render w = None
  ∧ onboardingCompleted (store w) = false.
Proof.
  intros Hs Hes Hes' Hearly w.
  destruct (mounted_phase s es Hes) as (Hfresh & _ & Hnow).
  set (w0 := run (Mount :: es) (page s)) in *.
  destruct (Hfresh Hs) as [Hp | [[_ Ht] | [[_ Ht] | [_ Ht]]]]; try lia.
  assert (mounted (comp (unmount w0)) = false ∧ timers (unmount w0) = []
          ∧ onboardingCompleted (store (unmount w0)) = false) as Hgone.
  { destruct Hp as [s' id n nx Hs' Hid Hn].
    unfold unmount, cleanupEffect1, clearTimeout; simpl.
    rewrite bool_decide_eq_false_2 by done. simpl.
    by rewrite filter_cons_False, filter_nil by (by intros H; apply H). }
  subst w. generalize dependent (unmount w0). clear Hp Hnow w0 Hfresh.
  induction es' as [|e es' IH]; intros w1 (Hm & Ht & Hflag); simpl.
  - split; [done|]. split; [|done]. unfold render. by rewrite Hm.
  - simpl in Hes'. apply andb_prop in Hes' as [He Hes'].
    destruct (gone_step e w1 He Hm Ht) as (Hm' & Ht' & Hflag').
    apply (IH Hes'). split; [done|]. split; [done|]. congruence.
Qed.

Lemma early_unmount_is_clean_witness :
  timers (run [Advance 600; ConnectionStatus "inst-1" "Connected"]
              (unmount (run [Mount; Advance 300] (page Sample.firstRun)))) = []
  ∧ render (run [Advance 600; ConnectionStatus "inst-1" "Connected"]
                (unmount (run [Mount; Advance 300] (page Sample.firstRun)))) = None
  ∧ onboardingCompleted
      (store (run [Advance 600; ConnectionStatus "inst-1" "Connected"]
                  (unmount (run [Mount; Advance 300] (page Sample.firstRun)))))
    = false.
Proof.
  apply (early_unmount_is_clean Sample.firstRun [Advance 300]
           [Advance 600; ConnectionStatus "inst-1" "Connected"]);
    try reflexivity. simpl. lia.
Defined.

End OnboardingMore.
